(** * Blockly.Field (core/field.js): a shallow embedding and its properties

    The abstract base class of every editable region of a block: a
    text/value pair, a two-stage validator chain, the text node that shows
    the text (truncation, non-breaking spaces, right-to-left mark), the
    lazily computed width with its process-wide cache, visibility, and the
    choice of the click target.

    JavaScript objects that the field shares with the rest of the editor
    (the owning block, the event bus, the DOM) are kept in one [World]:
    the field under study, a store of block objects addressed by
    reference, the two static cache members of [Blockly.Field], and an
    ordered log of every call that leaves the file.

    Pixel quantities are exact rationals (no rounding), validators and
    [positionArrow] are functions of their argument whose calls are
    logged, and [goog.asserts.assert] throws, as it does in the uncompiled
    library.  Number values are doubles: a numeric string is rounded to
    the nearest double before [==] compares it, and [String] prints the
    shortest digits that read back. *)

From Stdlib Require Import ZArith QArith Ascii String DecimalString.
From stdpp Require Import base tactics option list gmap strings.

Open Scope Z_scope.

(** ** The fragment of JavaScript the file relies on *)

Module JS.

(** A JavaScript string is a sequence of UTF-16 code units. *)
Definition jsstring := list N.

(** Source literals are ASCII; [lit] turns one into code units. *)
Fixpoint lit (s : string) : jsstring :=
  match s with
  | EmptyString => []
  | String a s' => N_of_ascii a :: lit s'
  end.

(** The primitive values.  [VNum z] is the Number value of the integer
    literal [z]: the double nearest to [z], which is [z] itself up to
    [2^53].  Fractions, NaN, objects and symbols are left out. *)
Inductive JSValue :=
| VNull
| VUndefined
| VBool (b : bool)
| VNum (z : Z)
| VStr (s : jsstring).

#[global] Instance JSValue_eq_dec : EqDecision JSValue.
Proof. solve_decision. Defined.

(** [x === null] *)
Definition is_null (v : JSValue) : bool :=
  match v with VNull => true | _ => false end.

(** [x === undefined] *)
Definition is_undefined (v : JSValue) : bool :=
  match v with VUndefined => true | _ => false end.

(** *** Number values *)

(** A Number value: a double.  A finite one is kept as the rational it
    is; the two zeros are one value here, since [==] and [String] do not
    tell them apart. *)
Inductive Double :=
| NotANumber
| Infinite (negative : bool)
| Value (q : Q).

(** [floor (log2 (a / b))], for positive [a] and [b]. *)
Definition log2_ratio (a b : Z) : Z :=
  let d := Z.log2 a - Z.log2 b in
  if (if 0 <=? d then b * 2 ^ d <=? a else b <=? a * 2 ^ (- d)) then d else d - 1.

(** [a / b] rounded to the nearest integer, a tie to the even one. *)
Definition round_half_even (a b : Z) : Z :=
  let q := a / b in
  match 2 * (a mod b) ?= b with
  | Lt => q
  | Gt => q + 1
  | Eq => if Z.even q then q else q + 1
  end.

(** [n * 2^j] *)
Definition binary (n j : Z) : Q :=
  if 0 <=? j then inject_Z (n * 2 ^ j) else n # Z.to_pos (2 ^ (- j)).

(** The double nearest to [a / b] for positive [a] and [b]: 53 bits from
    the leading one on, but no bit below [2^-1074]; a tie goes to the even
    mantissa; what rounds to [2^1024] or more is infinite. *)
Definition round_positive (a b : Z) : Double :=
  let j := Z.max (log2_ratio a b - 52) (- 1074) in
  let n := if 0 <=? j then round_half_even a (b * 2 ^ j)
           else round_half_even (a * 2 ^ (- j)) b in
  if 2 ^ 1024 <=? n * 2 ^ j then Infinite false else Value (binary n j).

Definition opposite (x : Double) : Double :=
  match x with
  | NotANumber => NotANumber
  | Infinite b => Infinite (negb b)
  | Value q => Value (- q)
  end.

(** The Number value for the rational [a / b], [b] positive. *)
Definition RoundToDouble (a b : Z) : Double :=
  match a with
  | 0 => Value 0
  | Z.pos _ => round_positive a b
  | Z.neg _ => opposite (round_positive (- a) b)
  end.

(** The Number value for [m * 10^e]. *)
Definition RoundDecimal (m e : Z) : Double :=
  if 0 <=? e then RoundToDouble (m * 10 ^ e) 1 else RoundToDouble m (10 ^ (- e)).

(** [x == y] on Number values. *)
Definition Number_equal (x y : Double) : bool :=
  match x, y with
  | Infinite a, Infinite b => Bool.eqb a b
  | Value p, Value q => Qeq_bool p q
  | _, _ => false
  end.

(** The decimal digits of a natural number. *)
Definition decimal (z : Z) : jsstring := lit (NilZero.string_of_int (Z.to_int z)).

Definition digit_count (z : Z) : Z := Z.of_nat (length (decimal z)).

(** The [n] with [10^(n-1) <= a / b < 10^n], for positive [a] and [b]:
    the number of digits of the integer part or, below 1, one minus the
    number of digits of the largest integer below [b / a]. *)
Definition magnitude (a b : Z) : Z :=
  if b <=? a then digit_count (a / b) else 1 - digit_count ((b - 1) / a).

(** The [k]-digit decimals next to [a / b], a number of magnitude [n]: the
    integers [s] and [s + 1] with
    [s * 10^(n-k) <= a / b < (s + 1) * 10^(n-k)].  The result is the one
    that reads back as the double [a / b]; the nearer one if both do (a
    tie to the even one); none if neither does. *)
Definition digits_of_length (a b n k : Z) : option Z :=
  let p := n - k in
  let '(c, d) := if 0 <=? p then (a, b * 10 ^ p) else (a * 10 ^ (- p), b) in
  let s := c / d in
  let reads_back s := Number_equal (RoundDecimal s p) (RoundToDouble a b) in
  match reads_back s, reads_back (s + 1) with
  | true, true => Some (round_half_even c d)
  | true, false => Some s
  | false, true => Some (s + 1)
  | false, false => None
  end.

(** The shortest decimal that reads back as the double [a / b]: its digits
    as an integer [s] and its exponent [p], the decimal being [s * 10^p].
    The search goes from one digit up; seventeen digits tell any two
    doubles apart, so it ends there at the latest. *)
Fixpoint shortest_from (fuel : nat) (a b n k : Z) : Z * Z :=
  match fuel with
  | O => (round_half_even a b, 0)
  | S fuel' =>
      match digits_of_length a b n k with
      | Some s => (s, n - k)
      | None => shortest_from fuel' a b n (k + 1)
      end
  end.

Definition shortest (a b : Z) : Z * Z := shortest_from 17 a b (magnitude a b) 1.

Fixpoint strip_zeros (reversed : jsstring) : jsstring :=
  match reversed with
  | 48%N :: r => strip_zeros r
  | _ => reversed
  end.

Definition zeros (n : Z) : jsstring := repeat 48%N (Z.to_nat n).

(** [Number::toString] on the positive double [a / b]: with [k] digits
    [d] and the decimal point after the [n]th of them, the digits and
    [n - k] zeros if [k <= n <= 21]; the digits with the point inside if
    [0 < n <= 21]; [0.], [-n] zeros and the digits if [-6 < n <= 0]; else
    the exponent form. *)
Definition positive_toString (a b : Z) : jsstring :=
  let '(s, p) := shortest a b in
  let n := digit_count s + p in
  let d := rev (strip_zeros (rev (decimal s))) in
  let k := Z.of_nat (length d) in
  if (k <=? n) && (n <=? 21) then d ++ zeros (n - k)
  else if (0 <? n) && (n <=? 21) then
    take (Z.to_nat n) d ++ lit "." ++ drop (Z.to_nat n) d
  else if (-6 <? n) && (n <=? 0) then lit "0." ++ zeros (- n) ++ d
  else
    let e := n - 1 in
    let exponent := lit (if 0 <=? e then "e+" else "e-") ++ decimal (Z.abs e) in
    match d with
    | [c] => c :: exponent
    | c :: r => c :: lit "." ++ r ++ exponent
    | [] => []
    end.

(** [Number::toString] *)
Definition Number_toString (x : Double) : jsstring :=
  match x with
  | NotANumber => lit "NaN"
  | Infinite false => lit "Infinity"
  | Infinite true => lit "-Infinity"
  | Value q =>
      match Qnum q with
      | 0 => lit "0"
      | Z.pos _ => positive_toString (Qnum q) (Z.pos (Qden q))
      | Z.neg _ => lit "-" ++ positive_toString (- Qnum q) (Z.pos (Qden q))
      end
  end.

(** The Number value of the integer literal [z]. *)
Definition Number_of (z : Z) : Double := RoundToDouble z 1.

(** *** Conversions and comparison *)

(** [String(x)] *)
Definition ToString (v : JSValue) : jsstring :=
  match v with
  | VNull => lit "null"
  | VUndefined => lit "undefined"
  | VBool true => lit "true"
  | VBool false => lit "false"
  | VNum z => Number_toString (Number_of z)
  | VStr s => s
  end.

(** WhiteSpace and LineTerminator code units: what the regular expression
    class [\s] matches and what [ToNumber] strips from both ends (U+180E,
    a space separator only in older Unicode versions, is not counted). *)
Definition is_whitespace (c : N) : bool :=
  ((9 <=? c) && (c <=? 13) || (c =? 32) || (c =? 160) || (c =? 5760)
   || (8192 <=? c) && (c <=? 8202) || (c =? 8232) || (c =? 8233)
   || (c =? 8239) || (c =? 8287) || (c =? 12288) || (c =? 65279))%N.

(** The mathematical value a numeric string denotes, before it is
    rounded to a Number value: [Finite m e] is [m * 10^e]. *)
Inductive JSNumber :=
| NaN
| Infinity (negative : bool)
| Finite (m e : Z).

Fixpoint span (p : N -> bool) (s : jsstring) : jsstring * jsstring :=
  match s with
  | c :: r => if p c then let '(a, b) := span p r in (c :: a, b) else ([], s)
  | [] => ([], [])
  end.

Definition trim (s : jsstring) : jsstring :=
  let s1 := snd (span is_whitespace s) in
  rev (snd (span is_whitespace (rev s1))).

Definition is_digit (c : N) : bool := ((48 <=? c) && (c <=? 57))%N.

Definition hex_value (c : N) : option Z :=
  if is_digit c then Some (Z.of_N c - 48)
  else if ((97 <=? c) && (c <=? 102))%N then Some (Z.of_N c - 87)
  else if ((65 <=? c) && (c <=? 70))%N then Some (Z.of_N c - 55)
  else None.

(** Digits of [s] in radix [base], most significant first; [None] when
    [s] is empty or holds a code unit that is no digit of that radix. *)
Definition radix_value (base : Z) (s : jsstring) : option Z :=
  match s with
  | [] => None
  | _ =>
      fold_left (fun acc c =>
                   match acc, hex_value c with
                   | Some a, Some d => if d <? base then Some (a * base + d) else None
                   | _, _ => None
                   end) s (Some 0)
  end.

(** ExponentPart without its leading [e]. *)
Definition exponent_value (s : jsstring) : option Z :=
  match s with
  | 43%N :: r => radix_value 10 r
  | 45%N :: r => Z.opp <$> radix_value 10 r
  | _ => radix_value 10 s
  end.

(** StrUnsignedDecimalLiteral *)
Definition unsigned_decimal (s : jsstring) : JSNumber :=
  if decide (s = lit "Infinity") then Infinity false else
  let '(ip, r1) := span is_digit s in
  let '(fp, r2) := match r1 with
                   | 46%N :: r => span is_digit r
                   | _ => ([], r1)
                   end in
  match radix_value 10 (ip ++ fp) with
  | None => NaN
  | Some m =>
      let scale := - Z.of_nat (length fp) in
      match r2 with
      | [] => Finite m scale
      | c :: r3 =>
          if ((c =? 101) || (c =? 69))%N then
            match exponent_value r3 with
            | Some e => Finite m (e + scale)
            | None => NaN
            end
          else NaN
      end
  end.

Definition negate (n : JSNumber) : JSNumber :=
  match n with
  | NaN => NaN
  | Infinity b => Infinity (negb b)
  | Finite m e => Finite (- m) e
  end.

Definition radix_literal (base : Z) (s : jsstring) : JSNumber :=
  match radix_value base s with
  | Some m => Finite m 0
  | None => NaN
  end.

(** [ToNumber] applied to a string (StringNumericLiteral). *)
Definition StringToNumber (s : jsstring) : JSNumber :=
  match trim s with
  | [] => Finite 0 0
  | 48%N :: 120%N :: r | 48%N :: 88%N :: r => radix_literal 16 r
  | 48%N :: 111%N :: r | 48%N :: 79%N :: r => radix_literal 8 r
  | 48%N :: 98%N :: r | 48%N :: 66%N :: r => radix_literal 2 r
  | 43%N :: r => unsigned_decimal r
  | 45%N :: r => negate (unsigned_decimal r)
  | t => unsigned_decimal t
  end.

(** [ToNumber] applied to a string: the value of the literal, rounded. *)
Definition StringToDouble (s : jsstring) : Double :=
  match StringToNumber s with
  | NaN => NotANumber
  | Infinity b => Infinite b
  | Finite m e => RoundDecimal m e
  end.

Definition bool_number (b : bool) : Z := if b then 1 else 0.

(** [x == y], the abstract equality comparison, on the primitives: a
    string or a boolean compared with a number, and a string with a
    boolean, are compared as numbers. *)
Definition loose_eq (x y : JSValue) : bool :=
  match x, y with
  | VNull, VNull | VNull, VUndefined
  | VUndefined, VNull | VUndefined, VUndefined => true
  | VBool a, VBool b => Bool.eqb a b
  | VNum a, VNum b => Number_equal (Number_of a) (Number_of b)
  | VStr a, VStr b => bool_decide (a = b)
  | VNum a, VStr s | VStr s, VNum a => Number_equal (StringToDouble s) (Number_of a)
  | VBool b, VNum a | VNum a, VBool b =>
      Number_equal (Number_of (bool_number b)) (Number_of a)
  | VBool b, VStr s | VStr s, VBool b =>
      Number_equal (StringToDouble s) (Number_of (bool_number b))
  | _, _ => false
  end.

#[global] Arguments loose_eq : simpl never.

(** Truthiness of a number: [!n] holds for zero. *)
Definition Qfalsy (q : Q) : bool := Qeq_bool q 0.

End JS.
Export JS.

(** ** Objects *)

Definition Node := N.
Definition BlockId := N.

(** An error thrown by the code: a property read through [null] or
    [undefined], or a failed [goog.asserts.assert] (assertions enabled, as
    in the uncompiled library). *)
Inductive Error :=
| TypeError
| AssertionError (message : string).

(** [goog.math.Size] *)
Record Size := { width : Q; height : Q }.

(** The SVG text element: the two properties [render_] reads back. *)
Record TextElement := {
  te_node : Node;
  className : jsstring;
  textContent : jsstring;
}.

Record Binding := { bind_target : Node; bind_name : string }.

(** The part of an input slot and of a block the field looks at. *)
Record Input := { fieldRow : list N }.

Record Block := {
  RTL : bool;
  rendered : bool;
  isShadow : bool;
  isEditable : bool;
  inputList : list Input;
  svgGroup_ : Node;
  getSvgRoot_block : Node;
}.

(** [Blockly.Events.Change] *)
Record Change := {
  ev_block : BlockId;
  ev_element : string;
  ev_name : option jsstring;
  ev_oldValue : JSValue;
  ev_newValue : JSValue;
}.

Inductive AttrValue :=
| AStr (s : jsstring)
| ANum (q : Q).

(** Calls that leave the file, in the order they are made. *)
Inductive Call :=
| createSvgElement (tag : string) (attrs : list (string * AttrValue))
                   (parent : option Node) (result : Node)
| style_set (n : Node) (property : string) (value : JSValue)
| setAttribute (n : Node) (attr : string) (value : AttrValue)
| addClass_ (n : Node) (cls : string)
| removeClass_ (n : Node) (cls : string)
| appendChild (parent child : Node)
| removeNode (n : option Node)
| removeChildren (n : Node)
| appendTextNode (n : Node) (data : jsstring)
| getComputedTextLength (n : Node)
| bindEvent_ (target : Node) (name : string)
| unbindEvent_ (b : Binding)
| Events_fire (e : Change)
| block_render (b : BlockId)
| block_bumpNeighbours_ (b : BlockId)
| call_classValidator (text : JSValue)
| call_validator (text : JSValue)
| call_positionArrow (w : Q).

(** The field object.  The last four members are the ones a subclass
    supplies ([classValidator] has the identity as its base version). *)
Record Field := {
  name : option jsstring;
  text_ : jsstring;
  sourceBlock_ : option BlockId;
  visible_ : bool;
  argType_ : option (list jsstring);
  validator_ : option (JSValue -> JSValue);
  size_ : Size;
  maxDisplayLength : Z;
  fieldGroup_ : option Node;
  textElement_ : option TextElement;
  mouseUpWrapper_ : option Binding;
  box_ : option Node;
  EDITABLE : bool;
  CURSOR : JSValue;
  classValidator : JSValue -> JSValue;
  positionArrow : option (Q -> Q);
}.

(** What the rest of the library and the browser supply: the constants of
    [Blockly.BlockSvg] and the text measurement ([None]: it throws). *)
Record Host := {
  FIELD_WIDTH : Q;
  FIELD_HEIGHT : Q;
  FIELD_TOP_PADDING : Q;
  EDITABLE_FIELD_PADDING : Q;
  BOX_FIELD_PADDING : Q;
  MAX_DISPLAY_LENGTH : Z;
  measure : jsstring -> jsstring -> option Q;
}.

Record World := {
  this : Field;
  blocks : BlockId -> Block;
  cacheWidths_ : option (gmap (list N) Q);
  cacheReference_ : Z;
  Events_isEnabled : bool;
  next_node : Node;
  calls : list Call;
}.

(** *** Assignments *)

Definition with_this (g : Field -> Field) (w : World) : World :=
  {| this := g (this w); blocks := blocks w;
     cacheWidths_ := cacheWidths_ w; cacheReference_ := cacheReference_ w;
     Events_isEnabled := Events_isEnabled w; next_node := next_node w;
     calls := calls w |}.

Definition with_calls (g : list Call -> list Call) (w : World) : World :=
  {| this := this w; blocks := blocks w;
     cacheWidths_ := cacheWidths_ w; cacheReference_ := cacheReference_ w;
     Events_isEnabled := Events_isEnabled w; next_node := next_node w;
     calls := g (calls w) |}.

Definition with_cache (c : option (gmap (list N) Q)) (r : Z) (w : World) : World :=
  {| this := this w; blocks := blocks w;
     cacheWidths_ := c; cacheReference_ := r;
     Events_isEnabled := Events_isEnabled w; next_node := next_node w;
     calls := calls w |}.

Definition with_next_node (n : Node) (w : World) : World :=
  {| this := this w; blocks := blocks w;
     cacheWidths_ := cacheWidths_ w; cacheReference_ := cacheReference_ w;
     Events_isEnabled := Events_isEnabled w; next_node := n;
     calls := calls w |}.

Definition set_text_ (v : jsstring) (f : Field) : Field :=
  {| name := name f; text_ := v; sourceBlock_ := sourceBlock_ f;
     visible_ := visible_ f; argType_ := argType_ f; validator_ := validator_ f;
     size_ := size_ f; maxDisplayLength := maxDisplayLength f;
     fieldGroup_ := fieldGroup_ f; textElement_ := textElement_ f;
     mouseUpWrapper_ := mouseUpWrapper_ f; box_ := box_ f;
     EDITABLE := EDITABLE f; CURSOR := CURSOR f;
     classValidator := classValidator f; positionArrow := positionArrow f |}.

Definition set_sourceBlock_ (v : option BlockId) (f : Field) : Field :=
  {| name := name f; text_ := text_ f; sourceBlock_ := v;
     visible_ := visible_ f; argType_ := argType_ f; validator_ := validator_ f;
     size_ := size_ f; maxDisplayLength := maxDisplayLength f;
     fieldGroup_ := fieldGroup_ f; textElement_ := textElement_ f;
     mouseUpWrapper_ := mouseUpWrapper_ f; box_ := box_ f;
     EDITABLE := EDITABLE f; CURSOR := CURSOR f;
     classValidator := classValidator f; positionArrow := positionArrow f |}.

Definition set_visible_ (v : bool) (f : Field) : Field :=
  {| name := name f; text_ := text_ f; sourceBlock_ := sourceBlock_ f;
     visible_ := v; argType_ := argType_ f; validator_ := validator_ f;
     size_ := size_ f; maxDisplayLength := maxDisplayLength f;
     fieldGroup_ := fieldGroup_ f; textElement_ := textElement_ f;
     mouseUpWrapper_ := mouseUpWrapper_ f; box_ := box_ f;
     EDITABLE := EDITABLE f; CURSOR := CURSOR f;
     classValidator := classValidator f; positionArrow := positionArrow f |}.

Definition set_argType_ (v : option (list jsstring)) (f : Field) : Field :=
  {| name := name f; text_ := text_ f; sourceBlock_ := sourceBlock_ f;
     visible_ := visible_ f; argType_ := v; validator_ := validator_ f;
     size_ := size_ f; maxDisplayLength := maxDisplayLength f;
     fieldGroup_ := fieldGroup_ f; textElement_ := textElement_ f;
     mouseUpWrapper_ := mouseUpWrapper_ f; box_ := box_ f;
     EDITABLE := EDITABLE f; CURSOR := CURSOR f;
     classValidator := classValidator f; positionArrow := positionArrow f |}.

Definition set_validator_ (v : option (JSValue -> JSValue)) (f : Field) : Field :=
  {| name := name f; text_ := text_ f; sourceBlock_ := sourceBlock_ f;
     visible_ := visible_ f; argType_ := argType_ f; validator_ := v;
     size_ := size_ f; maxDisplayLength := maxDisplayLength f;
     fieldGroup_ := fieldGroup_ f; textElement_ := textElement_ f;
     mouseUpWrapper_ := mouseUpWrapper_ f; box_ := box_ f;
     EDITABLE := EDITABLE f; CURSOR := CURSOR f;
     classValidator := classValidator f; positionArrow := positionArrow f |}.

Definition set_size_ (v : Size) (f : Field) : Field :=
  {| name := name f; text_ := text_ f; sourceBlock_ := sourceBlock_ f;
     visible_ := visible_ f; argType_ := argType_ f; validator_ := validator_ f;
     size_ := v; maxDisplayLength := maxDisplayLength f;
     fieldGroup_ := fieldGroup_ f; textElement_ := textElement_ f;
     mouseUpWrapper_ := mouseUpWrapper_ f; box_ := box_ f;
     EDITABLE := EDITABLE f; CURSOR := CURSOR f;
     classValidator := classValidator f; positionArrow := positionArrow f |}.

Definition set_maxDisplayLength (v : Z) (f : Field) : Field :=
  {| name := name f; text_ := text_ f; sourceBlock_ := sourceBlock_ f;
     visible_ := visible_ f; argType_ := argType_ f; validator_ := validator_ f;
     size_ := size_ f; maxDisplayLength := v;
     fieldGroup_ := fieldGroup_ f; textElement_ := textElement_ f;
     mouseUpWrapper_ := mouseUpWrapper_ f; box_ := box_ f;
     EDITABLE := EDITABLE f; CURSOR := CURSOR f;
     classValidator := classValidator f; positionArrow := positionArrow f |}.

Definition set_fieldGroup_ (v : option Node) (f : Field) : Field :=
  {| name := name f; text_ := text_ f; sourceBlock_ := sourceBlock_ f;
     visible_ := visible_ f; argType_ := argType_ f; validator_ := validator_ f;
     size_ := size_ f; maxDisplayLength := maxDisplayLength f;
     fieldGroup_ := v; textElement_ := textElement_ f;
     mouseUpWrapper_ := mouseUpWrapper_ f; box_ := box_ f;
     EDITABLE := EDITABLE f; CURSOR := CURSOR f;
     classValidator := classValidator f; positionArrow := positionArrow f |}.

Definition set_textElement_ (v : option TextElement) (f : Field) : Field :=
  {| name := name f; text_ := text_ f; sourceBlock_ := sourceBlock_ f;
     visible_ := visible_ f; argType_ := argType_ f; validator_ := validator_ f;
     size_ := size_ f; maxDisplayLength := maxDisplayLength f;
     fieldGroup_ := fieldGroup_ f; textElement_ := v;
     mouseUpWrapper_ := mouseUpWrapper_ f; box_ := box_ f;
     EDITABLE := EDITABLE f; CURSOR := CURSOR f;
     classValidator := classValidator f; positionArrow := positionArrow f |}.

Definition set_mouseUpWrapper_ (v : option Binding) (f : Field) : Field :=
  {| name := name f; text_ := text_ f; sourceBlock_ := sourceBlock_ f;
     visible_ := visible_ f; argType_ := argType_ f; validator_ := validator_ f;
     size_ := size_ f; maxDisplayLength := maxDisplayLength f;
     fieldGroup_ := fieldGroup_ f; textElement_ := textElement_ f;
     mouseUpWrapper_ := v; box_ := box_ f;
     EDITABLE := EDITABLE f; CURSOR := CURSOR f;
     classValidator := classValidator f; positionArrow := positionArrow f |}.

Definition set_width (v : Q) (f : Field) : Field :=
  set_size_ {| width := v; height := height (size_ f) |} f.

(** ** Control: state, and completion by return or by throw *)

Inductive Completion (A : Type) :=
| Normal (a : A)
| Throw (e : Error).
Arguments Normal {A} a.
Arguments Throw {A} e.

Definition M (A : Type) : Type := World -> Completion A * World.

Definition ret {A} (a : A) : M A := fun w => (Normal a, w).

Definition bind {A B} (m : M A) (k : A -> M B) : M B :=
  fun w => match m w with
           | (Normal a, w') => k a w'
           | (Throw e, w') => (Throw e, w')
           end.

Notation "'let!' x ':=' m 'in' k" := (bind m (fun x => k))
  (at level 10, x name, m at level 100, k at level 200).
Notation "m '>>' k" := (bind m (fun _ => k))
  (at level 90, right associativity).

Definition throw {A} (e : Error) : M A := fun w => (Throw e, w).
Definition get {A} (g : Field -> A) : M A := fun w => (Normal (g (this w)), w).
Definition assign (g : Field -> Field) : M unit := fun w => (Normal tt, with_this g w).
Definition call (c : Call) : M unit := fun w => (Normal tt, with_calls (fun l => l ++ [c]) w).
Definition when (b : bool) (m : M unit) : M unit := if b then m else ret tt.

(** The world a computation leaves, and what it completes with. *)
Definition after {A} (m : M A) (w : World) : World := snd (m w).
Definition completion {A} (m : M A) (w : World) : Completion A := fst (m w).

(** [this.sourceBlock_.p]: a [TypeError] on an unbound field. *)
Definition sourceBlock {A} (p : Block -> A) : M A :=
  fun w => match sourceBlock_ (this w) with
           | Some b => (Normal (p (blocks w b)), w)
           | None => (Throw TypeError, w)
           end.

Definition truthy {A} (o : option A) : bool :=
  match o with Some _ => true | None => false end.

Definition Math_min (a b : Q) : Q := if Qle_bool a b then a else b.
Definition Math_max (a b : Q) : Q := if Qle_bool a b then b else a.

(** [s.substring(0, e)] *)
Definition substring0 (e : Z) (s : jsstring) : jsstring := firstn (Z.to_nat e) s.

(** [a.join(' ')] *)
Fixpoint join_space (a : list jsstring) : jsstring :=
  match a with
  | [] => []
  | [x] => x
  | x :: r => x ++ 32%N :: join_space r
  end.

Definition NBSP : N := 160.
Definition ELLIPSIS : N := 8230.
Definition RLM : N := 8207.

(** ** Blockly.Field *)

Definition goog_asserts_assert (condition : bool) (message : string) : M unit :=
  if condition then ret tt else throw (AssertionError message).

Definition Blockly_createSvgElement (tag : string) (attrs : list (string * AttrValue))
    (parent : option Node) : M Node :=
  fun w =>
    let n := next_node w in
    (Normal n,
     with_calls (fun l => l ++ [createSvgElement tag attrs parent n])
                (with_next_node (N.succ n) w)).

Definition setSourceBlock (block : BlockId) : M unit :=
  let! bound := get sourceBlock_ in
  goog_asserts_assert (negb (truthy bound)) "Field already bound to a block." >>
  assign (set_sourceBlock_ (Some block)).

Definition isVisible : M bool := get visible_.

Definition addArgType (argType : jsstring) : M unit :=
  let! a := get argType_ in
  assign (set_argType_ (Some (match a with Some l => l | None => [] end ++ [argType]))).

Definition getArgTypes : M (option jsstring) :=
  let! a := get argType_ in
  match a with
  | None | Some [] => ret None
  | Some l => ret (Some (join_space l))
  end.

Definition setValidator (handler : option (JSValue -> JSValue)) : M unit :=
  assign (set_validator_ handler).

Definition getValidator : M (option (JSValue -> JSValue)) := get validator_.

Definition callValidator (text : JSValue) : M JSValue :=
  let! cv := get classValidator in
  call (call_classValidator text) >>
  let classResult := cv text in
  if is_null classResult then ret VNull
  else
    let text := if negb (is_undefined classResult) then classResult else text in
    let! userValidator := getValidator in
    match userValidator with
    | Some uv =>
        call (call_validator text) >>
        let userResult := uv text in
        if is_null userResult then ret VNull
        else if negb (is_undefined userResult) then ret userResult
        else ret text
    | None => ret text
    end.

Definition getSvgRoot : M (option Node) := get fieldGroup_.

(** The loop runs to the first falsy entry of [inputList]; its entries are
    input objects, so it visits them all. *)
Definition getClickTarget_ : M (option Node) :=
  let! inputs := sourceBlock inputList in
  let nFields :=
    fold_left (fun n input => (n + length (fieldRow input))%nat) inputs 0%nat in
  if (nFields <=? 1)%nat then
    let! root := sourceBlock getSvgRoot_block in ret (Some root)
  else getSvgRoot.

Definition updateEditable : M unit :=
  let! group := get fieldGroup_ in
  let! editable := get EDITABLE in
  match group with
  | Some g =>
      if negb editable then ret tt
      else
        let! blockEditable := sourceBlock isEditable in
        if blockEditable then
          call (addClass_ g "blocklyEditableText") >>
          call (removeClass_ g "blocklyNonEditableText") >>
          let! target := getClickTarget_ in
          let! cursor := get CURSOR in
          match target with
          | Some t => call (style_set t "cursor" cursor)
          | None => throw TypeError
          end
        else
          call (addClass_ g "blocklyNonEditableText") >>
          call (removeClass_ g "blocklyEditableText") >>
          let! target := getClickTarget_ in
          match target with
          | Some t => call (style_set t "cursor" (VStr []))
          | None => throw TypeError
          end
  | None => ret tt
  end.

Definition read_cache : M (option (gmap (list N) Q)) :=
  fun w => (Normal (cacheWidths_ w), w).

Definition write_cache (key : jsstring) (v : Q) : M unit :=
  fun w => (Normal tt,
            with_cache (insert key v <$> cacheWidths_ w) (cacheReference_ w) w).

(** [cache && cache[key]]: a hit needs a truthy (nonzero) entry. *)
Definition cache_lookup (cache : option (gmap (list N) Q)) (key : jsstring) : option Q :=
  match cache ≫= (fun c => c !! key) with
  | Some cached => if Qfalsy cached then None else Some cached
  | None => None
  end.

(** The [try]/[catch] around [getComputedTextLength()]. *)
Definition textLength (h : Host) (el : TextElement) : M Q :=
  call (getComputedTextLength (te_node el)) >>
  match measure h (textContent el) (className el) with
  | Some m => ret m
  | None => ret (inject_Z (Z.of_nat (length (textContent el))) * 8)%Q
  end.

Definition render_ (h : Host) : M unit :=
  let! visible := get visible_ in
  let! te := get textElement_ in
  let! width_ :=
    match te with
    | Some el =>
        if visible then
          let key := textContent el ++ 10%N :: className el in
          let! cache := read_cache in
          let! width_ :=
            match cache_lookup cache key with
            | Some cached => ret cached
            | None =>
                let! measured := textLength h el in
                when (truthy cache) (write_cache key measured) >>
                ret measured
            end in
          let! editable := get EDITABLE in
          let width_ := (if editable then width_ + EDITABLE_FIELD_PADDING h else width_)%Q in
          let! arrow := get positionArrow in
          let! arrowWidth :=
            match arrow with
            | Some f => call (call_positionArrow width_) >> ret (f width_)
            | None => ret 0%Q
            end in
          let width_ := (if truthy arrow then width_ + arrowWidth else width_)%Q in
          let! box := get box_ in
          let width_ := (if truthy box then width_ + 2 * BOX_FIELD_PADDING h else width_)%Q in
          let centerTextX := ((width_ - arrowWidth) / 2)%Q in
          let! rtl := sourceBlock RTL in
          let centerTextX := (if rtl then centerTextX + arrowWidth else centerTextX)%Q in
          let! shadow := sourceBlock isShadow in
          let centerTextX :=
            (if shadow && negb (truthy arrow) then
               let minOffset := FIELD_WIDTH h / 2 in
               if rtl then Math_min (width_ - minOffset) centerTextX
               else Math_max minOffset centerTextX
             else centerTextX)%Q in
          call (setAttribute (te_node el) "x" (ANum centerTextX)) >>
          ret width_
        else ret 0%Q
    | None => ret 0%Q
    end in
  assign (set_width width_) >>
  let! box := get box_ in
  match box with
  | Some b =>
      let! size := get size_ in
      call (setAttribute b "width" (ANum (width size))) >>
      call (setAttribute b "height" (ANum (height size)))
  | None => ret tt
  end.

Definition startCache : M unit :=
  fun w =>
    let r := cacheReference_ w + 1 in
    (Normal tt,
     with_cache (if truthy (cacheWidths_ w) then cacheWidths_ w else Some ∅) r w).

Definition stopCache : M unit :=
  fun w =>
    let r := cacheReference_ w - 1 in
    (Normal tt,
     with_cache (if r =? 0 then None else cacheWidths_ w) r w).

Definition getSize (h : Host) : M Size :=
  let! size := get size_ in
  when (Qfalsy (width size)) (render_ h) >>
  get size_.

Definition setVisible (h : Host) (visible : bool) : M unit :=
  let! current := get visible_ in
  if Bool.eqb current visible then ret tt
  else
    assign (set_visible_ visible) >>
    let! root := getSvgRoot in
    match root with
    | Some r =>
        call (style_set r "display" (VStr (lit (if visible then "block" else "none")))) >>
        render_ h
    | None => ret tt
    end.

Definition getText : M jsstring := get text_.

Definition updateTextNode_ : M unit :=
  let! te := get textElement_ in
  match te with
  | None => ret tt
  | Some el =>
      let! text := get text_ in
      let! maxLength := get maxDisplayLength in
      let truncated := Z.of_nat (length text) >? maxLength in
      let text := if truncated then substring0 (maxLength - 2) text ++ [ELLIPSIS] else text in
      let cls := lit (if truncated then "blocklyText blocklyTextTruncated" else "blocklyText") in
      call (setAttribute (te_node el) "class" (AStr cls)) >>
      call (removeChildren (te_node el)) >>
      assign (set_textElement_
                (Some {| te_node := te_node el; className := cls; textContent := [] |})) >>
      let text := map (fun c => if is_whitespace c then NBSP else c) text in
      let! rtl := sourceBlock RTL in
      let text := if rtl && negb (bool_decide (text = [])) then text ++ [RLM] else text in
      let text := if bool_decide (text = []) then [NBSP] else text in
      call (appendTextNode (te_node el) text) >>
      assign (set_textElement_
                (Some {| te_node := te_node el; className := cls; textContent := text |})) >>
      assign (set_width 0)
  end.

Definition setText (text : JSValue) : M unit :=
  if is_null text then ret tt
  else
    let text := ToString text in
    let! current := get text_ in
    if bool_decide (text = current) then ret tt
    else
      assign (set_text_ text) >>
      updateTextNode_ >>
      let! block := get sourceBlock_ in
      match block with
      | Some b =>
          let! isRendered := sourceBlock rendered in
          when isRendered (call (block_render b) >> call (block_bumpNeighbours_ b))
      | None => ret tt
      end.

Definition getValue : M jsstring := getText.

Definition Events_isEnabled_ : M bool := fun w => (Normal (Events_isEnabled w), w).

Definition setValue (newText : JSValue) : M unit :=
  if is_null newText then ret tt
  else
    let! oldText := getValue in
    if loose_eq (VStr oldText) newText then ret tt
    else
      let! block := get sourceBlock_ in
      let! fieldName := get name in
      (match block with
       | Some b =>
           let! enabled := Events_isEnabled_ in
           when enabled
             (call (Events_fire {| ev_block := b; ev_element := "field";
                                   ev_name := fieldName;
                                   ev_oldValue := VStr oldText;
                                   ev_newValue := newText |}))
       | None => ret tt
       end) >>
      setText newText.

Definition init (h : Host) : M unit :=
  let! group := get fieldGroup_ in
  if truthy group then ret tt
  else
    let! g := Blockly_createSvgElement "g" [] None in
    assign (set_fieldGroup_ (Some g)) >>
    let! visible := get visible_ in
    when (negb visible) (call (style_set g "display" (VStr (lit "none")))) >>
    let! argTypes := getArgTypes in
    match argTypes with
    | Some a =>
        let! shadow := sourceBlock isShadow in
        if shadow then
          let! blockGroup := sourceBlock svgGroup_ in
          call (setAttribute blockGroup "data-argument-type" (AStr a))
        else call (setAttribute g "data-argument-type" (AStr a))
    | None => ret tt
    end >>
    let! size := getSize h in
    let! rtl := sourceBlock RTL in
    let fieldX := (if rtl then - width size / 2 else width size / 2)%Q in
    let! t := Blockly_createSvgElement "text"
                [("class", AStr (lit "blocklyText"));
                 ("x", ANum fieldX);
                 ("y", ANum (height size / 2 + FIELD_TOP_PADDING h)%Q);
                 ("dominant-baseline", AStr (lit "middle"));
                 ("text-anchor", AStr (lit "middle"))]
                (Some g) in
    assign (set_textElement_
              (Some {| te_node := t; className := lit "blocklyText"; textContent := [] |})) >>
    updateEditable >>
    let! root := sourceBlock getSvgRoot_block in
    call (appendChild root g) >>
    let! target := getClickTarget_ in
    match target with
    | Some tg =>
        call (bindEvent_ tg "mouseup") >>
        assign (set_mouseUpWrapper_ (Some {| bind_target := tg; bind_name := "mouseup" |}))
    | None => throw TypeError
    end >>
    updateTextNode_.

Definition dispose : M unit :=
  let! wrapper := get mouseUpWrapper_ in
  match wrapper with
  | Some b => call (unbindEvent_ b) >> assign (set_mouseUpWrapper_ None)
  | None => ret tt
  end >>
  assign (set_sourceBlock_ None) >>
  let! group := get fieldGroup_ in
  call (removeNode group) >>
  assign (set_fieldGroup_ None) >>
  assign (set_textElement_ None) >>
  assign (set_validator_ None).

(** The members [Blockly.Field.prototype] gives every field.  A base field
    has no [box_], no [positionArrow] and no [CURSOR]; [size_] and
    [maxDisplayLength] are only set by the constructor. *)
Definition prototype : Field :=
  {| name := None; text_ := []; sourceBlock_ := None; visible_ := true;
     argType_ := None; validator_ := None;
     size_ := {| width := 0; height := 0 |}; maxDisplayLength := 0;
     fieldGroup_ := None; textElement_ := None; mouseUpWrapper_ := None;
     box_ := None; EDITABLE := true; CURSOR := VUndefined;
     classValidator := fun text => text; positionArrow := None |}.

(** [new Blockly.Field(text, opt_validator)], run on a fresh object. *)
Definition Field_new (h : Host) (text : JSValue)
    (opt_validator : option (JSValue -> JSValue)) : M unit :=
  assign (set_size_ {| width := FIELD_WIDTH h; height := FIELD_HEIGHT h |}) >>
  setValue text >>
  setValidator opt_validator >>
  assign (set_maxDisplayLength (MAX_DISPLAY_LENGTH h)).

(** ** Sample worlds *)

(** Illustrative constants; the measurement gives seven pixels a code unit. *)
Definition sample_host : Host :=
  {| FIELD_WIDTH := 48; FIELD_HEIGHT := 32; FIELD_TOP_PADDING := 2;
     EDITABLE_FIELD_PADDING := 6; BOX_FIELD_PADDING := 8;
     MAX_DISPLAY_LENGTH := 8;
     measure := fun text _ => Some (inject_Z (Z.of_nat (length text)) * 7)%Q |}.

Definition sample_block (rtl : bool) (inputs : list Input) : Block :=
  {| RTL := rtl; rendered := true; isShadow := false; isEditable := true;
     inputList := inputs; svgGroup_ := 1%N; getSvgRoot_block := 1%N |}.

(** Block 1 holds one field, block 2 two fields in two inputs, block 3 is
    right-to-left; every other reference is a block without fields. *)
Definition sample_blocks (b : BlockId) : Block :=
  if (b =? 1)%N then sample_block false [ {| fieldRow := [7%N] |} ]
  else if (b =? 2)%N then
    sample_block false [ {| fieldRow := [7%N] |}; {| fieldRow := [] |}; {| fieldRow := [8%N] |} ]
  else if (b =? 3)%N then sample_block true [ {| fieldRow := [7%N] |} ]
  else sample_block false [].

Definition fresh_world : World :=
  {| this := prototype; blocks := sample_blocks; cacheWidths_ := None;
     cacheReference_ := 0; Events_isEnabled := true; next_node := 100%N;
     calls := [] |}.

(** A field constructed with [text], not yet bound. *)
Definition constructed (text : string) : World :=
  after (Field_new sample_host (VStr (lit text)) None) fresh_world.

(** The same field bound to block [b] and initialised. *)
Definition installed (text : string) (b : BlockId) : World :=
  after (setSourceBlock b >> init sample_host) (constructed text).

(** A field with text [text] on block [b] that has been hidden. *)
Definition hidden (text : string) (b : BlockId) : World :=
  after (setVisible sample_host false) (installed text b).

(** A subclass: its own class validator and editability. *)
Definition subclass (cv : JSValue -> JSValue) (editable : bool) (f : Field) : Field :=
  {| name := name f; text_ := text_ f; sourceBlock_ := sourceBlock_ f;
     visible_ := visible_ f; argType_ := argType_ f; validator_ := validator_ f;
     size_ := size_ f; maxDisplayLength := maxDisplayLength f;
     fieldGroup_ := fieldGroup_ f; textElement_ := textElement_ f;
     mouseUpWrapper_ := mouseUpWrapper_ f; box_ := box_ f;
     EDITABLE := editable; CURSOR := CURSOR f;
     classValidator := cv; positionArrow := positionArrow f |}.

(** A class validator that rejects everything, in front of a user
    validator that would accept anything. *)
Definition rejecting_field : World :=
  with_this (subclass (fun _ => VNull) true)
    (after (setValidator (Some (fun _ => VStr (lit "spy")))) (constructed "abc")).

(** A class validator that has no opinion, and a user validator that
    replaces the text "7" by the number 7 and keeps the rest. *)
Definition validating_field : World :=
  with_this (subclass (fun _ => VUndefined) true)
    (after (setValidator
              (Some (fun t => match t with VStr [55%N] => VNum 7 | _ => VUndefined end)))
           (constructed "abc")).

(** A host whose measurement gives 0, as for text that is not displayed,
    and a label on it: a field that is not editable. *)
Definition flat_host : Host :=
  {| FIELD_WIDTH := 48; FIELD_HEIGHT := 32; FIELD_TOP_PADDING := 2;
     EDITABLE_FIELD_PADDING := 6; BOX_FIELD_PADDING := 8;
     MAX_DISPLAY_LENGTH := 8;
     measure := fun _ _ => Some 0%Q |}.

Definition hidden_label : World :=
  after (setSourceBlock 2%N >> init flat_host >> setVisible flat_host false)
        (with_this (subclass (fun text => text) false) (constructed "abc")).

(** ** Definitions used to state the properties *)

(** The change events among the calls made. *)
Definition fired (l : list Call) : list Change :=
  omap (fun c => match c with Events_fire e => Some e | _ => None end) l.

(** The rule the spec gives for a validator result: null rejects,
    undefined keeps the text, anything else replaces it. *)
Definition validation_rule (result text : JSValue) : JSValue :=
  match result with
  | VNull => VNull
  | VUndefined => text
  | replacement => replacement
  end.

(** A text with every whitespace code unit replaced by a non-breaking
    space. *)
Definition no_break (s : jsstring) : jsstring :=
  map (fun c => if is_whitespace c then NBSP else c) s.

(** The text element is only ever present on a bound field ([init] needs
    the block, [dispose] drops both). *)
Definition attached (w : World) : Prop :=
  is_Some (textElement_ (this w)) -> is_Some (sourceBlock_ (this w)).

(** An initialised field: [init] has built the group and the text element
    on a bound field. *)
Definition initialized (w : World) : Prop :=
  is_Some (fieldGroup_ (this w)) /\ is_Some (textElement_ (this w))
  /\ is_Some (sourceBlock_ (this w)).

(** A hidden field has width 0: [render_] and [updateTextNode_], the only
    writers of the width after the constructor, both leave 0 there. *)
Definition hidden_flat (w : World) : Prop :=
  visible_ (this w) = false -> width (size_ (this w)) = 0%Q.

(** What holds of a field from [init] on, until [dispose]. *)
Definition ready (w : World) : Prop := initialized w /\ hidden_flat w.

(** The key of the width cache: text content, a newline, the class. *)
Definition cache_key (el : TextElement) : jsstring :=
  textContent el ++ 10%N :: className el.

(** The measured width of the text, or eight pixels a code unit when the
    measurement throws. *)
Definition measured_width (h : Host) (el : TextElement) : Q :=
  match measure h (textContent el) (className el) with
  | Some m => m
  | None => (inject_Z (Z.of_nat (length (textContent el))) * 8)%Q
  end.

(** The width of the text: the cache entry if caching is on and holds a
    nonzero one for the key, else the measured width. *)
Definition text_width (h : Host) (el : TextElement) (cache : option (gmap (list N) Q)) : Q :=
  match cache_lookup cache (cache_key el) with
  | Some cached => cached
  | None => measured_width h el
  end.

(** The width of a visible field: the text width, plus the padding of an
    editable field, plus the width of a drop-down arrow, plus the padding
    on both sides of a box. *)
Definition computed_width (h : Host) (f : Field) (cache : option (gmap (list N) Q)) : Q :=
  match textElement_ f with
  | Some el =>
      let w0 := text_width h el cache in
      let w1 := (if EDITABLE f then w0 + EDITABLE_FIELD_PADDING h else w0)%Q in
      let w2 := match positionArrow f with
                | Some arrow => (w1 + arrow w1)%Q
                | None => w1
                end in
      (if truthy (box_ f) then w2 + 2 * BOX_FIELD_PADDING h else w2)%Q
  | None => 0%Q
  end.

(** The number of fields of a block, over all its input slots. *)
Definition total_fields (b : Block) : nat :=
  list_sum (map (fun input => length (fieldRow input)) (inputList b)).

(** Sequences of cache calls. *)
Inductive CacheCall := Start | Stop.

Definition cache_call (c : CacheCall) : M unit :=
  match c with Start => startCache | Stop => stopCache end.

Fixpoint cache_calls (l : list CacheCall) : M unit :=
  match l with
  | [] => ret tt
  | c :: r => cache_call c >> cache_calls r
  end.

(** Strictly nested calls: from nesting depth [depth], no [Stop] comes
    without an open [Start]. *)
Fixpoint nested (depth : Z) (l : list CacheCall) : bool :=
  match l with
  | [] => true
  | Start :: r => nested (depth + 1) r
  | Stop :: r => (0 <? depth) && nested (depth - 1) r
  end.

(** The count is never negative, and the cache is there exactly when it is
    positive. *)
Definition cache_counted (w : World) : Prop :=
  0 <= cacheReference_ w /\ (is_Some (cacheWidths_ w) <-> 0 < cacheReference_ w).

(** The calls a step adds, none of them a change event. *)
Definition adds_quietly (w w' : World) : Prop :=
  exists rest, calls w' = calls w ++ rest /\ fired rest = [].

(** The event [setValue(x)] builds on a field bound to [b]. *)
Definition change_event (w : World) (b : BlockId) (x : JSValue) : Change :=
  {| ev_block := b; ev_element := "field"; ev_name := name (this w);
     ev_oldValue := VStr (text_ (this w)); ev_newValue := x |}.

(** The world once [setValue(x)] has passed its two early returns and the
    event has been handed to the bus, if it is: nothing but the log of
    calls differs from [w]. *)
Definition announced (w : World) (x : JSValue) : World :=
  match sourceBlock_ (this w) with
  | Some b =>
      if Events_isEnabled w
      then with_calls (fun l => l ++ [Events_fire (change_event w b x)]) w
      else w
  | None => w
  end.

(** [wp m Q w]: run from [w], [m] returns normally, with a result and a
    world that satisfy [Q]. *)
Definition wp {A} (m : M A) (Q : A -> World -> Prop) (w : World) : Prop :=
  match m w with
  | (Normal a, w') => Q a w'
  | (Throw _, _) => False
  end.

(** What the steps of [init] other than its two assignments leave alone
    (the width, the event binding and the log are not in the list). *)
Definition same_field (w w' : World) : Prop :=
  sourceBlock_ (this w') = sourceBlock_ (this w)
  /\ fieldGroup_ (this w') = fieldGroup_ (this w)
  /\ textElement_ (this w') = textElement_ (this w)
  /\ visible_ (this w') = visible_ (this w)
  /\ text_ (this w') = text_ (this w)
  /\ blocks w' = blocks w.

(** ** Further definitions used to state properties *)

(** What the text node shows for the stored text [t]: the text, cut when
    it is longer than [n], with non-breaking spaces for whitespace, the
    right-to-left mark on a right-to-left block, and a non-breaking space
    in place of nothing. *)
Definition display_text (rtl : bool) (n : Z) (t : jsstring) : jsstring :=
  let body := no_break (if Z.of_nat (length t) >? n
                        then substring0 (n - 2) t ++ [ELLIPSIS] else t) in
  if bool_decide (body = []) then [NBSP]
  else if rtl then body ++ [RLM] else body.

Definition display_class (n : Z) (t : jsstring) : jsstring :=
  lit (if Z.of_nat (length t) >? n
       then "blocklyText blocklyTextTruncated" else "blocklyText").

(** The text element of a field on block [b] once [updateTextNode_] has
    run. *)
Definition shown_element (w : World) (b : BlockId) (node : Node) : TextElement :=
  {| te_node := node;
     className := display_class (maxDisplayLength (this w)) (text_ (this w));
     textContent := display_text (RTL (blocks w b)) (maxDisplayLength (this w))
                      (text_ (this w)) |}.

(** The number of text measurements among the calls made. *)
Definition measurements (l : list Call) : nat :=
  length (List.filter (fun c => match c with
                                | getComputedTextLength _ => true
                                | _ => false
                                end) l).

(** A text content without newline, as [updateTextNode_] leaves it: the
    cache key then determines text content and class. *)
Definition clean (el : TextElement) : Prop := 10%N ∉ textContent el.

(** A cache whose nonzero entries are the widths the measurement gives for
    their keys. *)
Definition cache_sound (h : Host) (cache : option (gmap (list N) Q)) : Prop :=
  forall m el v, cache = Some m -> clean el ->
    m !! cache_key el = Some v -> Qfalsy v = false -> v = measured_width h el.

(** The stored width is stale (0) or the width of the field measured
    without cache. *)
Definition width_ok (h : Host) (w : World) : Prop :=
  Qfalsy (width (size_ (this w))) = true
  \/ width (size_ (this w)) = computed_width h (this w) None.

(** A field without the members that [init] and the renderer write: the
    group, the text element, the event binding and the width. *)
Definition without_dom (f : Field) : Field :=
  set_width 0 (set_mouseUpWrapper_ None (set_textElement_ None (set_fieldGroup_ None f))).

(** The node [getClickTarget_] chooses on block [b] for a field with group
    [g]. *)
Definition click_target (w : World) (b : BlockId) (g : Node) : Node :=
  if (total_fields (blocks w b) <=? 1)%nat then getSvgRoot_block (blocks w b) else g.

(** [fails m e Q w]: run from [w], [m] throws [e] and leaves a world that
    satisfies [Q]. *)
Definition fails {A} (m : M A) (e : Error) (Q : World -> Prop) (w : World) : Prop :=
  match m w with
  | (Throw e', w') => e' = e /\ Q w'
  | (Normal _, _) => False
  end.

(** Steps that leave the field and the blocks alone. *)
Definition same_this (w w' : World) : Prop :=
  this w' = this w /\ blocks w' = blocks w /\ next_node w' = next_node w.

(** Steps that leave the field and the blocks alone and add the calls [l]
    to the log. *)
Definition logs (l : list Call) (w w' : World) : Prop :=
  same_this w w' /\ calls w' = calls w ++ l.

(** The calls [updateEditable] makes on a field with group [g] on block
    [b]. *)
Definition editable_calls (w : World) (b : BlockId) (g : Node) : list Call :=
  if EDITABLE (this w) then
    if isEditable (blocks w b)
    then [addClass_ g "blocklyEditableText";
          removeClass_ g "blocklyNonEditableText";
          style_set (click_target w b g) "cursor" (CURSOR (this w))]
    else [addClass_ g "blocklyNonEditableText";
          removeClass_ g "blocklyEditableText";
          style_set (click_target w b g) "cursor" (VStr [])]
  else [].

(** The calls of [init] on a field of block [b] that has no group yet, in
    the order of the source: the group is created (hidden at once for an
    invisible field); the argument types, if any, are written to the block
    group of a shadow block, else to the new group; [getSize()] renders a
    field whose width is 0, which without text element only resizes the
    box of a subclass that has one; the text element is created in the
    group, at half the width; the group gets its classes, is appended to
    the block root, and the listener is bound on the click target; then the
    text node is written. *)
Definition init_calls (h : Host) (w : World) (b : BlockId) : list Call :=
  let f := this w in
  let blk := blocks w b in
  let g := next_node w in
  let t := N.succ g in
  let stale := Qfalsy (width (size_ f)) in
  let width0 := if stale then 0%Q else width (size_ f) in
  [createSvgElement "g" [] None g]
  ++ (if visible_ f then [] else [style_set g "display" (VStr (lit "none"))])
  ++ match argType_ f with
     | None | Some [] => []
     | Some l => [setAttribute (if isShadow blk then svgGroup_ blk else g)
                    "data-argument-type" (AStr (join_space l))]
     end
  ++ match box_ f with
     | Some box => if stale
                   then [setAttribute box "width" (ANum 0);
                         setAttribute box "height" (ANum (height (size_ f)))]
                   else []
     | None => []
     end
  ++ [createSvgElement "text"
        [("class", AStr (lit "blocklyText"));
         ("x", ANum (if RTL blk then - width0 / 2 else width0 / 2)%Q);
         ("y", ANum (height (size_ f) / 2 + FIELD_TOP_PADDING h)%Q);
         ("dominant-baseline", AStr (lit "middle"));
         ("text-anchor", AStr (lit "middle"))]
        (Some g) t]
  ++ editable_calls w b g
  ++ [appendChild (getSvgRoot_block blk) g;
      bindEvent_ (click_target w b g) "mouseup";
      setAttribute t "class" (AStr (display_class (maxDisplayLength f) (text_ f)));
      removeChildren t;
      appendTextNode t (display_text (RTL blk) (maxDisplayLength f) (text_ f))].

(** ** The pointer handler *)

(** [goog.userAgent], as far as the handler asks. *)
Record UserAgent := {
  IPHONE : bool;
  IPAD : bool;
  isVersionOrHigher : string -> bool;
}.

(** The mouse-up event: its two layer coordinates and what
    [Blockly.isRightButton] answers for it. *)
Record MouseEvent := {
  layerX : JSValue;
  layerY : JSValue;
  isRightButton : bool;
}.

(** [v !== 0] *)
Definition not_zero (v : JSValue) : bool := negb (bool_decide (v = VNum 0)).

(** [isDragging b] is what the workspace of block [b] answers;
    [showEditor_] is the method the subclass supplies. *)
Definition onMouseUp_ (ua : UserAgent) (isDragging : BlockId -> bool)
    (showEditor_ : M unit) (e : MouseEvent) : M unit :=
  if (IPHONE ua || IPAD ua) && negb (isVersionOrHigher ua "537.51.2")
     && not_zero (layerX e) && not_zero (layerY e)
  then ret tt
  else if isRightButton e then ret tt
  else
    let! block := get sourceBlock_ in
    match block with
    | Some b =>
        if isDragging b then ret tt
        else
          let! editable := sourceBlock isEditable in
          if editable then showEditor_ else ret tt
    | None => throw TypeError
    end.

(** The event is one of those the handler drops before it looks at the
    block: the stray event of old iOS, or a right click. *)
Definition dropped (ua : UserAgent) (e : MouseEvent) : bool :=
  (IPHONE ua || IPAD ua) && negb (isVersionOrHigher ua "537.51.2")
  && not_zero (layerX e) && not_zero (layerY e)
  || isRightButton e.

(** Several [addArgType] calls in a row. *)
Fixpoint addArgTypes (l : list jsstring) : M unit :=
  match l with
  | [] => ret tt
  | a :: r => addArgType a >> addArgTypes r
  end.

(** Starts minus stops. *)
Fixpoint net_depth (l : list CacheCall) : Z :=
  match l with
  | [] => 0
  | Start :: r => 1 + net_depth r
  | Stop :: r => net_depth r - 1
  end.

Definition old_iPad : UserAgent :=
  {| IPHONE := false; IPAD := true; isVersionOrHigher := fun _ => false |}.

Definition desktop : UserAgent :=
  {| IPHONE := false; IPAD := false; isVersionOrHigher := fun _ => true |}.

(** A stand-in for a subclass editor: it leaves a mark in the log. *)
Definition sample_editor : M unit := call (call_validator (VStr (lit "editor"))).

(** ** Properties *)

(** *** Setters and the null argument *)

(** C5: [setValue(null)] and [setText(null)] return normally and leave the
    whole world as it was: text and value unchanged, no event fired, no
    call to the block or to the DOM. *)
Theorem setters_ignore_null (w : World) :
  setValue VNull w = (Normal tt, w) /\ setText VNull w = (Normal tt, w).
Proof. split; reflexivity. Qed.

(** Only null is tested for: [undefined] passes both tests of [setValue]
    and is stored as the string "undefined". *)
Example setValue_undefined_is_stored :
  completion (setValue VUndefined >> getValue) (constructed "abc")
  = Normal (lit "undefined").
Proof. reflexivity. Qed.

(** *** Binding to a block *)

(** C6: on a field bound to a block, [setSourceBlock] with any block
    throws the assertion error and leaves the world, hence the reference to
    the first block, untouched; on an unbound field it returns normally and
    stores the reference. *)
Theorem setSourceBlock_binds_once (w : World) (b : BlockId) :
  (forall b1, sourceBlock_ (this w) = Some b1 ->
     setSourceBlock b w = (Throw (AssertionError "Field already bound to a block."), w)
     /\ sourceBlock_ (this (after (setSourceBlock b) w)) = Some b1)
  /\ (sourceBlock_ (this w) = None ->
       setSourceBlock b w = (Normal tt, with_this (set_sourceBlock_ (Some b)) w)
       /\ sourceBlock_ (this (after (setSourceBlock b) w)) = Some b).
Proof.
  split.
  - intros b1 Hb. unfold after, setSourceBlock, bind, get. rewrite Hb. simpl.
    split; [reflexivity | exact Hb].
  - intros Hb. unfold after, setSourceBlock, bind, get. rewrite Hb. simpl.
    split; reflexivity.
Qed.

Lemma setSourceBlock_binds_once_witness :
  (setSourceBlock 2%N (installed "abc" 1%N)
   = (Throw (AssertionError "Field already bound to a block."), installed "abc" 1%N)
   /\ sourceBlock_ (this (after (setSourceBlock 2%N) (installed "abc" 1%N))) = Some 1%N)
  /\ (setSourceBlock 2%N (constructed "abc")
      = (Normal tt, with_this (set_sourceBlock_ (Some 2%N)) (constructed "abc"))
      /\ sourceBlock_ (this (after (setSourceBlock 2%N) (constructed "abc"))) = Some 2%N).
Proof.
  split.
  - apply (proj1 (setSourceBlock_binds_once (installed "abc" 1%N) 2%N) 1%N). reflexivity.
  - apply (proj2 (setSourceBlock_binds_once (constructed "abc") 2%N)). reflexivity.
Defined.

(** C10: [dispose] always returns normally and leaves the block reference
    null, so [setSourceBlock(b)] right after it returns normally and binds
    [b], whatever the field was bound to before. *)
Theorem dispose_allows_rebinding (w : World) (b : BlockId) :
  completion dispose w = Normal tt
  /\ sourceBlock_ (this (after dispose w)) = None
  /\ completion (dispose >> setSourceBlock b) w = Normal tt
  /\ sourceBlock_ (this (after (dispose >> setSourceBlock b) w)) = Some b.
Proof.
  unfold completion, after, dispose, setSourceBlock, bind, get, assign, call.
  destruct (mouseUpWrapper_ (this w)); simpl; auto.
Qed.

(** *** The click target *)

Lemma count_fields_from (inputs : list Input) (n : nat) :
  fold_left (fun n input => (n + length (fieldRow input))%nat) inputs n
  = (n + list_sum (map (fun input => length (fieldRow input)) inputs))%nat.
Proof.
  revert n. induction inputs as [|i r IH]; intros n; simpl.
  - lia.
  - rewrite IH. lia.
Qed.

Lemma getClickTarget_run (w : World) (b : BlockId) :
  sourceBlock_ (this w) = Some b ->
  getClickTarget_ w
  = (Normal (if (total_fields (blocks w b) <=? 1)%nat
             then Some (getSvgRoot_block (blocks w b))
             else fieldGroup_ (this w)), w).
Proof.
  intros Hb. unfold getClickTarget_, bind, sourceBlock, getSvgRoot, get, ret.
  rewrite Hb, count_fields_from, Nat.add_0_l. unfold total_fields.
  destruct (_ <=? 1)%nat; rewrite ?Hb; reflexivity.
Qed.

(** C9: on a field bound to block [b], [getClickTarget_] returns normally;
    the result is the block's root node when the block has at most one
    field over all its inputs, and the field's own group otherwise.  The
    call writes nothing (the world is returned as it was), so each call
    counts the fields of the block as it is then. *)
Theorem getClickTarget_by_field_count (w : World) (b : BlockId) :
  sourceBlock_ (this w) = Some b ->
  ((total_fields (blocks w b) <= 1)%nat ->
     getClickTarget_ w = (Normal (Some (getSvgRoot_block (blocks w b))), w))
  /\ ((2 <= total_fields (blocks w b))%nat ->
      getClickTarget_ w = (Normal (fieldGroup_ (this w)), w)).
Proof.
  intros Hb. rewrite (getClickTarget_run w b Hb). split; intros Hn.
  - apply Nat.leb_le in Hn. rewrite Hn. reflexivity.
  - destruct (Nat.leb_spec (total_fields (blocks w b)) 1) as [Hle|_];
      [lia | reflexivity].
Qed.

Lemma getClickTarget_by_field_count_witness :
  getClickTarget_ (installed "abc" 1%N) = (Normal (Some 1%N), installed "abc" 1%N)
  /\ getClickTarget_ (installed "abc" 2%N) = (Normal (Some 100%N), installed "abc" 2%N).
Proof.
  split.
  - apply (proj1 (getClickTarget_by_field_count (installed "abc" 1%N) 1%N eq_refl)).
    apply Nat.leb_le. reflexivity.
  - apply (proj2 (getClickTarget_by_field_count (installed "abc" 2%N) 2%N eq_refl)).
    apply Nat.leb_le. reflexivity.
Defined.

(** A field added to the block between two calls changes the answer: the
    count is not remembered. *)
Example getClickTarget_not_cached :
  let w := installed "abc" 1%N in
  let w' := {| this := this w; blocks := fun _ => sample_blocks 2%N;
               cacheWidths_ := cacheWidths_ w; cacheReference_ := cacheReference_ w;
               Events_isEnabled := Events_isEnabled w; next_node := next_node w;
               calls := calls w |} in
  completion getClickTarget_ w = Normal (Some 1%N)
  /\ completion getClickTarget_ w' = Normal (Some 100%N).
Proof. split; reflexivity. Qed.

(** *** The width cache *)

Lemma startCache_counted (w : World) :
  cache_counted w -> cache_counted (after startCache w).
Proof.
  unfold cache_counted, after, startCache. simpl. intros [Hr Hc].
  split; [lia|]. destruct (cacheWidths_ w); simpl; split; intros; eauto; lia.
Qed.

Lemma stopCache_counted (w : World) :
  0 < cacheReference_ w -> cache_counted w -> cache_counted (after stopCache w).
Proof.
  unfold cache_counted, after, stopCache. simpl. intros Hpos [Hr Hc].
  split; [lia|]. destruct (Z.eqb_spec (cacheReference_ w - 1) 0) as [E|E].
  - split; [intros [? ?]; discriminate | lia].
  - split; [lia | intros _; apply Hc; lia].
Qed.

Lemma cache_calls_counted (l : list CacheCall) (w : World) :
  cache_counted w -> nested (cacheReference_ w) l = true ->
  completion (cache_calls l) w = Normal tt /\ cache_counted (after (cache_calls l) w).
Proof.
  revert w. induction l as [|c r IH]; intros w Hw Hn.
  - split; [reflexivity | exact Hw].
  - destruct c; simpl in Hn.
    + specialize (IH (after startCache w) (startCache_counted w Hw) Hn).
      exact IH.
    + apply andb_true_iff in Hn as [Hpos Hn]. apply Z.ltb_lt in Hpos.
      specialize (IH (after stopCache w) (stopCache_counted w Hpos Hw) Hn).
      exact IH.
Qed.

(** C7: from the initial state (count 0, no cache), two starts and one stop
    leave the cache allocated and one more stop frees it; and after any
    strictly nested sequence of starts and stops the cache is allocated
    exactly when the count is greater than 0. *)
Theorem cache_reference_counted (w : World) (l : list CacheCall) :
  cacheReference_ w = 0 -> cacheWidths_ w = None -> nested 0 l = true ->
  is_Some (cacheWidths_ (after (cache_calls [Start; Start; Stop]) w))
  /\ cacheWidths_ (after (cache_calls [Start; Start; Stop; Stop]) w) = None
  /\ completion (cache_calls l) w = Normal tt
  /\ (is_Some (cacheWidths_ (after (cache_calls l) w))
      <-> 0 < cacheReference_ (after (cache_calls l) w)).
Proof.
  intros Hr Hc Hn.
  assert (Hw : cache_counted w).
  { unfold cache_counted. rewrite Hr, Hc. split; [lia|].
    split; [intros [? ?]; discriminate | lia]. }
  rewrite <- Hr in Hn. destruct (cache_calls_counted l w Hw Hn) as [Hok [_ Hiff]].
  repeat split; try apply Hiff; try exact Hok.
  - unfold after, cache_calls, cache_call, bind, startCache, stopCache. simpl.
    rewrite Hr, Hc. simpl. eauto.
  - unfold after, cache_calls, cache_call, bind, startCache, stopCache. simpl.
    rewrite Hr. reflexivity.
Qed.

Lemma cache_reference_counted_witness :
  is_Some (cacheWidths_ (after (cache_calls [Start; Start; Stop]) fresh_world))
  /\ cacheWidths_ (after (cache_calls [Start; Start; Stop; Stop]) fresh_world) = None
  /\ completion (cache_calls [Start; Start; Stop; Start; Stop]) fresh_world = Normal tt
  /\ (is_Some (cacheWidths_ (after (cache_calls [Start; Start; Stop; Start; Stop]) fresh_world))
      <-> 0 < cacheReference_ (after (cache_calls [Start; Start; Stop; Start; Stop]) fresh_world)).
Proof.
  apply (cache_reference_counted fresh_world [Start; Start; Stop; Start; Stop]);
    reflexivity.
Defined.

(** A stop without a start breaks the correspondence: the next start
    allocates the cache while the count is back at 0. *)
Example unbalanced_stop :
  let w := after (cache_calls [Stop; Start]) fresh_world in
  cacheReference_ w = 0 /\ is_Some (cacheWidths_ w).
Proof. split; [reflexivity | eexists; reflexivity]. Qed.

(** *** The validator chain *)

(** C2: [callValidator(t)] calls the class validator first, with [t].  If
    that returns null the result is null and the user validator is not
    called.  Otherwise the text becomes the class result unless that is
    undefined; without a user validator this text is returned; with one, it
    is called once with this text and its result is treated by the same
    rule. *)
Theorem callValidator_chain (w : World) (t : JSValue) :
  let c := classValidator (this w) t in
  let t1 := validation_rule c t in
  (c = VNull ->
     callValidator t w
     = (Normal VNull, with_calls (fun l => l ++ [call_classValidator t]) w))
  /\ (c <> VNull -> validator_ (this w) = None ->
      callValidator t w
      = (Normal t1, with_calls (fun l => l ++ [call_classValidator t]) w))
  /\ (forall uv, c <> VNull -> validator_ (this w) = Some uv ->
      callValidator t w
      = (Normal (validation_rule (uv t1) t1),
         with_calls (fun l => l ++ [call_validator t1])
           (with_calls (fun l => l ++ [call_classValidator t]) w))).
Proof.
  cbv zeta. unfold callValidator, bind, get, getValidator, call, ret.
  repeat split.
  - intros Hc. simpl. rewrite Hc. reflexivity.
  - intros Hc Hv. simpl.
    destruct (classValidator (this w) t); try congruence; simpl;
      rewrite Hv; reflexivity.
  - intros uv Hc Hv. simpl.
    destruct (classValidator (this w) t); try congruence; simpl;
      rewrite Hv; simpl; destruct (uv _); reflexivity.
Qed.

Lemma callValidator_chain_witness :
  callValidator (VStr (lit "x")) rejecting_field
  = (Normal VNull,
     with_calls (fun l => l ++ [call_classValidator (VStr (lit "x"))]) rejecting_field)
  /\ callValidator (VStr (lit "x")) (constructed "abc")
     = (Normal (VStr (lit "x")),
        with_calls (fun l => l ++ [call_classValidator (VStr (lit "x"))]) (constructed "abc"))
  /\ callValidator (VStr (lit "7")) validating_field
     = (Normal (VNum 7),
        with_calls (fun l => l ++ [call_validator (VStr (lit "7"))])
          (with_calls (fun l => l ++ [call_classValidator (VStr (lit "7"))]) validating_field)).
Proof.
  split; [|split].
  - apply (proj1 (callValidator_chain rejecting_field (VStr (lit "x")))). reflexivity.
  - apply (proj1 (proj2 (callValidator_chain (constructed "abc") (VStr (lit "x")))));
      [discriminate | reflexivity].
  - apply (proj2 (proj2 (callValidator_chain validating_field (VStr (lit "7"))))
             (fun t => match t with VStr [55%N] => VNum 7 | _ => VUndefined end));
      [discriminate | reflexivity].
Defined.

(** *** The text node *)

Ltac exec :=
  unfold completion, after, bind, ret, get, assign, call, when, throw, sourceBlock,
    getText, getValue, getSvgRoot, getValidator, Events_isEnabled_, read_cache,
    write_cache; simpl.

(** What [updateTextNode_] does on an initialised, bound field. *)
Lemma updateTextNode_run (w : World) (el : TextElement) (b : BlockId) :
  textElement_ (this w) = Some el -> sourceBlock_ (this w) = Some b ->
  let t := text_ (this w) in
  let n := maxDisplayLength (this w) in
  let long := Z.of_nat (length t) >? n in
  let cls := lit (if long then "blocklyText blocklyTextTruncated" else "blocklyText") in
  let body := no_break (if long then substring0 (n - 2) t ++ [ELLIPSIS] else t) in
  let shown := if bool_decide (body = []) then [NBSP]
               else if RTL (blocks w b) then body ++ [RLM] else body in
  updateTextNode_ w
  = (Normal tt,
     with_this (fun f => set_width 0
                  (set_textElement_
                     (Some {| te_node := te_node el; className := cls; textContent := shown |}) f))
       (with_calls (fun l => ((l ++ [setAttribute (te_node el) "class" (AStr cls)])
                              ++ [removeChildren (te_node el)])
                              ++ [appendTextNode (te_node el) shown]) w)).
Proof.
  intros Hel Hb. cbv zeta. unfold updateTextNode_, no_break. exec.
  rewrite Hel. simpl. rewrite Hb. simpl.
  set (body := map _ _).
  assert (Hmark : body ++ [RLM] <> []) by (destruct body; discriminate).
  destruct (RTL (blocks w b)); simpl; repeat case_bool_decide; simpl;
    repeat case_bool_decide; simpl in *; first [reflexivity | congruence].
Qed.

(** C3 (amended): on an initialised, bound field [updateTextNode_] returns
    normally, and the text node then shows the stored text, cut to its
    first [maxDisplayLength - 2] code units plus an ellipsis when it is
    longer than [maxDisplayLength], with every whitespace code unit (of the
    kept part too) replaced by a non-breaking space; to this a
    right-to-left mark is appended on a right-to-left block, and an empty
    result is shown as one non-breaking space.  The class of the node is
    the truncated one exactly when the text is longer than
    [maxDisplayLength].  The stored text is not changed. *)
Theorem updateTextNode_display (w : World) (el : TextElement) (b : BlockId) :
  textElement_ (this w) = Some el -> sourceBlock_ (this w) = Some b ->
  let t := text_ (this w) in
  let n := maxDisplayLength (this w) in
  let w' := after updateTextNode_ w in
  let body := if Z.of_nat (length t) >? n
              then no_break (firstn (Z.to_nat (n - 2)) t) ++ [ELLIPSIS]
              else no_break t in
  completion updateTextNode_ w = Normal tt
  /\ (textContent <$> textElement_ (this w'))
     = Some (if bool_decide (body = []) then [NBSP]
             else if RTL (blocks w b) then body ++ [RLM] else body)
  /\ (className <$> textElement_ (this w'))
     = Some (lit (if Z.of_nat (length t) >? n
                  then "blocklyText blocklyTextTruncated" else "blocklyText"))
  /\ text_ (this w') = t.
Proof.
  intros Hel Hb. cbv zeta. unfold completion, after.
  rewrite (updateTextNode_run w el b Hel Hb). simpl.
  repeat split. f_equal.
  destruct (Z.of_nat (length (text_ (this w))) >? maxDisplayLength (this w));
    [|reflexivity].
  unfold no_break, substring0. rewrite map_app. reflexivity.
Qed.

Lemma updateTextNode_display_witness :
  let w := installed "hello world" 1%N in
  completion updateTextNode_ w = Normal tt
  /\ (textContent <$> textElement_ (this (after updateTextNode_ w)))
     = Some (lit "hello" ++ [NBSP; ELLIPSIS])
  /\ (className <$> textElement_ (this (after updateTextNode_ w)))
     = Some (lit "blocklyText blocklyTextTruncated")
  /\ text_ (this (after updateTextNode_ w)) = lit "hello world".
Proof.
  exact (updateTextNode_display (installed "hello world" 1%N)
           {| te_node := 101%N; className := lit "blocklyText blocklyTextTruncated";
              textContent := lit "hello" ++ [NBSP; ELLIPSIS] |} 1%N
           eq_refl eq_refl).
Defined.

(** C3 as stated fails on the empty text: it is no longer than
    [maxDisplayLength] and holds no whitespace, yet what is shown is not
    the text but one non-breaking space. *)
Lemma updateTextNode_empty_text :
  let w := installed "" 1%N in
  Z.of_nat (length (text_ (this w))) <= maxDisplayLength (this w)
  /\ (textContent <$> textElement_ (this (after updateTextNode_ w))) = Some [NBSP]
  /\ (textContent <$> textElement_ (this (after updateTextNode_ w)))
     <> Some (no_break (text_ (this w))).
Proof. vm_compute. split; [|split]; [discriminate | reflexivity | discriminate]. Qed.

(** It fails on a right-to-left block as well, where a mark follows the
    text ... *)
Example updateTextNode_rtl_mark :
  let w := installed "abc" 3%N in
  (textContent <$> textElement_ (this (after updateTextNode_ w)))
  = Some (lit "abc" ++ [RLM]).
Proof. reflexivity. Qed.

(** ... and on a long text whose kept part holds a space: the text node of
    "hello world" cut at 8 holds a non-breaking space, not the space of the
    first six code units of the text. *)
Example updateTextNode_truncated_space :
  let w := installed "hello world" 1%N in
  (textContent <$> textElement_ (this (after updateTextNode_ w)))
  = Some (lit "hello" ++ [NBSP; ELLIPSIS])
  /\ lit "hello" ++ [NBSP; ELLIPSIS] <> firstn 6 (lit "hello world") ++ [ELLIPSIS].
Proof. split; [reflexivity | discriminate]. Qed.

(** *** Text and value *)

Lemma fired_app (l l' : list Call) : fired (l ++ l') = fired l ++ fired l'.
Proof. apply omap_app. Qed.

Lemma adds_quietly_refl (w : World) : adds_quietly w w.
Proof. exists []. rewrite app_nil_r. split; reflexivity. Qed.

Lemma adds_quietly_fired (w w' : World) :
  adds_quietly w w' -> fired (calls w') = fired (calls w).
Proof. intros (rest & -> & Hq). rewrite fired_app, Hq. apply app_nil_r. Qed.

Ltac quiet :=
  unfold after; simpl;
  match goal with
  | |- adds_quietly ?w ?w => apply adds_quietly_refl
  | |- adds_quietly _ _ =>
      eexists; simpl; rewrite <- ?app_assoc; simpl; split; reflexivity
  end.

Lemma updateTextNode_keeps (w : World) :
  let w' := after updateTextNode_ w in
  text_ (this w') = text_ (this w)
  /\ sourceBlock_ (this w') = sourceBlock_ (this w)
  /\ adds_quietly w w'
  /\ (attached w -> completion updateTextNode_ w = Normal tt).
Proof.
  cbv zeta. destruct (textElement_ (this w)) as [el|] eqn:Hel.
  - destruct (sourceBlock_ (this w)) as [b|] eqn:Hb.
    + unfold completion, after. rewrite (updateTextNode_run w el b Hel Hb). simpl.
      repeat split; try assumption. quiet.
    + unfold updateTextNode_, attached. exec. rewrite Hel. simpl. rewrite Hb. simpl.
      repeat split; try assumption; [quiet|].
      intros H. destruct H as [? ?]; [eauto | discriminate].
  - unfold updateTextNode_. exec. rewrite Hel. simpl. repeat split. quiet.
Qed.

Lemma setText_effect (w : World) (x : JSValue) :
  let w' := after (setText x) w in
  (x <> VNull -> text_ (this w') = ToString x)
  /\ adds_quietly w w'
  /\ (attached w -> completion (setText x) w = Normal tt).
Proof.
  cbv zeta. unfold setText. destruct (is_null x) eqn:Hnull.
  { destruct x; try discriminate. repeat split; try congruence. quiet. }
  exec. case_bool_decide as Heq; simpl.
  { repeat split; try congruence. quiet. }
  set (w1 := with_this (set_text_ (ToString x)) w).
  destruct (updateTextNode_keeps w1) as (Ht & Hs & (rest & Hc & Hq) & Hok).
  unfold completion, after in *.
  destruct (updateTextNode_ w1) as [[[]|e] w2] eqn:Hrun; simpl in *.
  - rewrite Hs. destruct (sourceBlock_ (this w)) as [b|] eqn:Hb; simpl.
    + rewrite Hs. simpl. destruct (rendered (blocks w2 b)); simpl;
        (repeat split; try congruence);
        eexists; simpl; rewrite Hc, <- ?app_assoc; (split; [reflexivity|]);
        rewrite ?fired_app, Hq; reflexivity.
    + repeat split; try congruence. exists rest. split; assumption.
  - repeat split; try congruence; [exists rest; split; assumption|].
    intros Hw. apply Hok. exact Hw.
Qed.

Lemma setValue_steps (w : World) (x : JSValue) :
  x <> VNull -> loose_eq (VStr (text_ (this w))) x = false ->
  setValue x w = setText x (announced w x).
Proof.
  intros Hx Hne. unfold setValue, announced, change_event.
  assert (is_null x = false) as -> by (destruct x; try reflexivity; congruence).
  exec. rewrite Hne. simpl.
  destruct (sourceBlock_ (this w)); simpl; try reflexivity.
  destruct (Events_isEnabled w); reflexivity.
Qed.

Lemma announced_this (w : World) (x : JSValue) : this (announced w x) = this w.
Proof.
  unfold announced. destruct (sourceBlock_ (this w)); [|reflexivity].
  destruct (Events_isEnabled w); reflexivity.
Qed.

(** C1 (amended): a value [x] that is not null and not loosely equal to
    the current value is stored as the string [String(x)], and that string
    is what [getValue()] returns next (it is [x] itself when [x] is a
    string); a value loosely equal to the current one makes [setValue] a
    strict no-op: the world is returned as it was, so the text is
    unchanged, no event is fired and the block is not rendered. *)
Theorem setValue_then_getValue (w : World) (x : JSValue) :
  (x <> VNull -> loose_eq (VStr (text_ (this w))) x = false -> attached w ->
     completion (setValue x >> getValue) w = Normal (ToString x)
     /\ (forall s, x = VStr s -> completion (setValue x >> getValue) w = Normal s))
  /\ (loose_eq (VStr (text_ (this w))) x = true -> setValue x w = (Normal tt, w)).
Proof.
  split.
  - intros Hx Hne Hw.
    assert (completion (setValue x >> getValue) w = Normal (ToString x)) as H.
    { unfold completion, bind. rewrite (setValue_steps w x Hx Hne).
      destruct (setText_effect (announced w x) x) as (Ht & _ & Hok).
      unfold completion, after, attached in *. rewrite announced_this in Hok.
      specialize (Hok Hw). specialize (Ht Hx).
      destruct (setText x (announced w x)) as [[[]|e] w2]; simpl in *;
        [|discriminate].
      unfold getValue, getText, get. simpl. congruence. }
    split; [exact H|]. intros s ->. exact H.
  - intros Heq. unfold setValue. destruct (is_null x); [reflexivity|].
    exec. rewrite Heq. reflexivity.
Qed.

Lemma setValue_then_getValue_witness :
  (completion (setValue (VStr (lit "hi")) >> getValue) (installed "abc" 2%N)
   = Normal (lit "hi")
   /\ (forall s, VStr (lit "hi") = VStr s ->
       completion (setValue (VStr (lit "hi")) >> getValue) (installed "abc" 2%N)
       = Normal s))
  /\ completion (setValue (VNum 5) >> getValue) (installed "abc" 2%N) = Normal (lit "5")
  /\ setValue (VNum 0) (installed "0" 2%N) = (Normal tt, installed "0" 2%N).
Proof.
  split; [|split].
  - apply (proj1 (setValue_then_getValue (installed "abc" 2%N) (VStr (lit "hi"))));
      [discriminate | reflexivity | intros _; eexists; reflexivity].
  - refine (proj1 (proj1 (setValue_then_getValue (installed "abc" 2%N) (VNum 5)) _ _ _));
      [discriminate | reflexivity | intros _; eexists; reflexivity].
  - apply (proj2 (setValue_then_getValue (installed "0" 2%N) (VNum 0))). reflexivity.
Defined.

(** C1 as stated fails on a value that is not a string: after
    [setValue(true)] on a field showing "abc", [getValue()] returns the
    string "true", which is not the boolean, not even loosely. *)
Lemma setValue_boolean_comes_back_as_string :
  let w := installed "abc" 2%N in
  VBool true <> VNull
  /\ loose_eq (VStr (text_ (this w))) (VBool true) = false
  /\ completion (setValue (VBool true) >> getValue) w = Normal (lit "true")
  /\ VStr (lit "true") <> VBool true
  /\ loose_eq (VStr (lit "true")) (VBool true) = false.
Proof. repeat split; discriminate. Qed.

(** Numbers are doubles.  [String] gives the shortest digits that read
    back as the number, and the exponent form from [1e21] on; an integer
    that no double holds stands for the nearest one. *)
Example String_of_numbers :
  ToString (VNum 42) = lit "42"
  /\ ToString (VNum (- 7)) = lit "-7"
  /\ ToString (VNum (2 ^ 53 + 1)) = lit "9007199254740992"
  /\ ToString (VNum (2 ^ 64)) = lit "18446744073709552000"
  /\ ToString (VNum (10 ^ 21)) = lit "1e+21"
  /\ ToString (VNum (10 ^ 23)) = lit "1e+23"
  /\ ToString (VNum 123456789012345678901234567890) = lit "1.2345678901234568e+29"
  /\ ToString (VNum (10 ^ 400)) = lit "Infinity".
Proof. vm_compute. repeat split. Qed.

Lemma log2_ratio_integer (p : positive) : log2_ratio (Z.pos p) 1 = Z.log2 (Z.pos p).
Proof.
  unfold log2_ratio. change (Z.log2 1) with 0. rewrite Z.sub_0_r.
  pose proof (Z.log2_nonneg (Z.pos p)) as H0.
  destruct (Z.leb_spec 0 (Z.log2 (Z.pos p))) as [_|]; [|lia].
  pose proof (Z.log2_spec (Z.pos p) ltac:(lia)) as [Hl _].
  rewrite Z.mul_1_l. destruct (Z.leb_spec (2 ^ Z.log2 (Z.pos p)) (Z.pos p)); [reflexivity|lia].
Qed.

Lemma round_half_even_integer (a : Z) : round_half_even a 1 = a.
Proof. unfold round_half_even. rewrite Z.mod_1_r, Z.div_1_r. reflexivity. Qed.

(** An integer up to [2^53] is its own Number value. *)
Lemma Number_of_safe (z : Z) :
  Z.abs z <= 2 ^ 53 -> Number_equal (Number_of z) (Value (inject_Z z)) = true.
Proof.
  assert (Hpos : forall p, Z.pos p <= 2 ^ 53 ->
            exists q, round_positive (Z.pos p) 1 = Value q /\ (q == inject_Z (Z.pos p))%Q).
  { intros p Hp. unfold round_positive. cbv zeta. rewrite log2_ratio_integer.
    pose proof (Z.log2_nonneg (Z.pos p)) as H0.
    assert (Hl : Z.log2 (Z.pos p) <= 53).
    { change 53 with (Z.log2 (2 ^ 53)). apply Z.log2_le_mono. exact Hp. }
    rewrite Z.max_l by lia.
    set (j := Z.log2 (Z.pos p) - 52).
    destruct (Z.leb_spec 0 j) as [Hj|Hj].
    - assert (Hj' : j = 0 \/ j = 1) by lia. destruct Hj' as [Hj'|Hj'].
      + rewrite Hj'. change (2 ^ 0) with 1. rewrite !Z.mul_1_r, round_half_even_integer.
        destruct (Z.leb_spec (2 ^ 1024) (Z.pos p)) as [Hbig|_].
        { assert (2 ^ 53 < 2 ^ 1024) by (apply Z.pow_lt_mono_r; lia). lia. }
        eexists. split; [reflexivity|]. unfold binary. simpl.
        change (2 ^ 0) with 1. rewrite Z.mul_1_r. reflexivity.
      + assert (Hp53 : Z.pos p = 2 ^ 53).
        { pose proof (Z.log2_spec (Z.pos p) ltac:(lia)) as [Hlo _].
          assert (Z.log2 (Z.pos p) = 53) as E by lia. rewrite E in Hlo. lia. }
        rewrite Hj', Hp53. eexists. split; [vm_compute; reflexivity|]. vm_compute. reflexivity.
    - rewrite round_half_even_integer.
      assert (E : 2 ^ j = 0) by (apply Z.pow_neg_r; lia). rewrite E, Z.mul_0_r.
      change (2 ^ 1024 <=? 0) with false. cbv iota.
      eexists. split; [reflexivity|]. unfold binary.
      destruct (Z.leb_spec 0 j) as [|_]; [lia|].
      unfold Qeq, inject_Z. simpl Qnum. simpl Qden.
      rewrite Z2Pos.id by (apply Z.pow_pos_nonneg; lia). lia. }
  intros Hz. unfold Number_of, RoundToDouble. destruct z as [|p|p].
  - reflexivity.
  - destruct (Hpos p Hz) as (q & -> & Hq). simpl. apply Qeq_bool_iff. exact Hq.
  - change (- Z.neg p) with (Z.pos p).
    destruct (Hpos p Hz) as (q & -> & Hq). simpl. apply Qeq_bool_iff.
    rewrite Hq. reflexivity.
Qed.

(** On the integers from -500 to 500 [String] gives the decimal digits,
    with a minus sign below 0. *)
Example String_of_small_integers :
  forallb (fun n => let z := Z.of_nat n - 500 in
                    bool_decide (ToString (VNum z)
                                 = lit (NilZero.string_of_int (Z.to_int z))))
          (seq 0 1001) = true.
Proof. vm_compute. reflexivity. Qed.

(** A string is compared with a number through its Number value: its
    digits are rounded to a double first. *)
Example loose_eq_rounds_the_string :
  loose_eq (VStr (lit "9007199254740993")) (VNum (2 ^ 53)) = true
  /\ loose_eq (VStr (lit "1e-400")) (VNum 0) = true
  /\ loose_eq (VStr (lit "1.00000000000000000000000001")) (VBool true) = true
  /\ loose_eq (VStr (lit " 0x10 ")) (VNum 16) = true
  /\ loose_eq (VStr (lit "Infinity")) (VNum (10 ^ 400)) = true
  /\ loose_eq (VStr (lit "0.5")) (VNum 0) = false
  /\ loose_eq (VStr (lit "abc")) (VNum 0) = false.
Proof. vm_compute. repeat split. Qed.

(** So [setValue(2^53)] on the text "9007199254740993" is a no-op, and
    [setText(1e21)] is one on the text "1e+21" but not on the text
    "1000000000000000000000". *)
Example setValue_of_a_rounded_number :
  let w := installed "9007199254740993" 2%N in
  setValue (VNum (2 ^ 53)) w = (Normal tt, w).
Proof. vm_compute. reflexivity. Qed.

Example setText_of_a_large_number :
  setText (VNum (10 ^ 21)) (installed "1e+21" 2%N) = (Normal tt, installed "1e+21" 2%N)
  /\ text_ (this (after (setText (VNum (10 ^ 21)))
                        (installed "1000000000000000000000" 2%N)))
     = lit "1e+21".
Proof. vm_compute. split; reflexivity. Qed.

(** C4: when [setValue(x)] gets past its two early returns, the rest of it
    is [setText(x)] run on the world [announced w x].  On a bound field with
    the event gate open this world differs from [w] by one more call, the
    change event with the block, "field", the field name, the old text and
    [x]; the field, and so its text, is as before.  What [setText] then
    adds to the log comes after the event and holds no other event.  On an
    unbound field or with the gate closed [setText(x)] runs on [w] itself
    and no event is fired.  In both cases the text ends up as
    [String(x)], and [setValue] returns normally whenever the text element
    sits on a bound field. *)
Theorem setValue_fires_before_update (w : World) (x : JSValue) :
  x <> VNull -> loose_eq (VStr (text_ (this w))) x = false ->
  let w' := after (setValue x) w in
  (forall b, sourceBlock_ (this w) = Some b -> Events_isEnabled w = true ->
     let w1 := with_calls (fun l => l ++ [Events_fire (change_event w b x)]) w in
     setValue x w = setText x w1
     /\ text_ (this w1) = text_ (this w)
     /\ (exists rest, calls w' = calls w ++ Events_fire (change_event w b x) :: rest
                      /\ fired rest = [])
     /\ fired (calls w') = fired (calls w) ++ [change_event w b x]
     /\ text_ (this w') = ToString x)
  /\ (sourceBlock_ (this w) = None \/ Events_isEnabled w = false ->
      setValue x w = setText x w
      /\ fired (calls w') = fired (calls w)
      /\ text_ (this w') = ToString x)
  /\ (attached w -> completion (setValue x) w = Normal tt).
Proof.
  intros Hx Hne. cbv zeta. unfold after, completion.
  rewrite (setValue_steps w x Hx Hne).
  split; [|split].
  - intros b Hb Hen. unfold announced. rewrite Hb, Hen.
    set (w1 := with_calls _ w).
    destruct (setText_effect w1 x) as (Ht & (rest & Hc & Hq) & _).
    unfold after in *. simpl in Hc. rewrite <- app_assoc in Hc. simpl in Hc.
    repeat split; try reflexivity; try (apply Ht; exact Hx).
    + exists rest. split; assumption.
    + rewrite Hc, fired_app. simpl. rewrite Hq. reflexivity.
  - intros Hoff.
    assert (announced w x = w) as ->.
    { unfold announced. destruct Hoff as [-> | Hoff]; [reflexivity|].
      rewrite Hoff. destruct (sourceBlock_ (this w)); reflexivity. }
    destruct (setText_effect w x) as (Ht & Hq & _).
    repeat split; [apply adds_quietly_fired; exact Hq | apply Ht; exact Hx].
  - intros Hw. destruct (setText_effect (announced w x) x) as (_ & _ & Hok).
    apply Hok. unfold attached. rewrite announced_this. exact Hw.
Qed.

Lemma setValue_fires_before_update_witness :
  let w := installed "abc" 2%N in
  let x := VNum 5 in
  let e := {| ev_block := 2%N; ev_element := "field"; ev_name := None;
              ev_oldValue := VStr (lit "abc"); ev_newValue := VNum 5 |} in
  fired (calls (after (setValue x) w)) = fired (calls w) ++ [e]
  /\ text_ (this (after (setValue x) w)) = lit "5"
  /\ fired (calls (after (setValue x) (constructed "abc"))) = fired (calls (constructed "abc"))
  /\ text_ (this (after (setValue x) (constructed "abc"))) = lit "5".
Proof.
  cbv zeta.
  destruct (setValue_fires_before_update (installed "abc" 2%N) (VNum 5)) as (Hon & _ & _);
    [discriminate | reflexivity |].
  destruct (setValue_fires_before_update (constructed "abc") (VNum 5)) as (_ & Hoff & _);
    [discriminate | reflexivity |].
  destruct (Hon 2%N eq_refl eq_refl) as (_ & _ & _ & Hf & Ht).
  destruct (Hoff (or_introl eq_refl)) as (_ & Hf' & Ht').
  repeat split; assumption.
Defined.

(** *** Width and visibility *)

#[local] Arguments Qplus : simpl never.
#[local] Arguments Qminus : simpl never.
#[local] Arguments Qmult : simpl never.
#[local] Arguments Qdiv : simpl never.
#[local] Arguments Qopp : simpl never.
#[local] Arguments inject_Z : simpl never.
#[local] Arguments Math_min : simpl never.
#[local] Arguments Math_max : simpl never.
#[local] Arguments Qfalsy : simpl never.
#[local] Arguments cache_lookup : simpl never.

(** [render_] on a hidden field, or before the text element exists. *)
Lemma render_hidden (h : Host) (w : World) :
  visible_ (this w) = false \/ textElement_ (this w) = None ->
  completion (render_ h) w = Normal tt
  /\ this (after (render_ h) w) = set_width 0 (this w)
  /\ cacheWidths_ (after (render_ h) w) = cacheWidths_ w
  /\ blocks (after (render_ h) w) = blocks w.
Proof.
  intros Hh. unfold render_. exec.
  destruct (textElement_ (this w)) as [el|] eqn:Hel; simpl.
  - destruct Hh as [Hv|?]; [|discriminate]. rewrite Hv. simpl.
    destruct (box_ (this w)); simpl; repeat split.
  - destruct (box_ (this w)); simpl; repeat split.
Qed.

(** Storing the measured width under the key that missed does not change
    the text width. *)
Lemma text_width_write (h : Host) (el : TextElement) (cache : option (gmap (list N) Q)) :
  cache_lookup cache (cache_key el) = None ->
  text_width h el cache = measured_width h el
  /\ text_width h el (insert (cache_key el) (measured_width h el) <$> cache)
     = measured_width h el.
Proof.
  intros Hmiss. unfold text_width. rewrite Hmiss. split; [reflexivity|].
  destruct cache as [c|]; [|reflexivity].
  unfold cache_lookup. simpl. rewrite lookup_insert_eq.
  destruct (Qfalsy (measured_width h el)); reflexivity.
Qed.

(** [render_] on a visible, initialised field: it returns normally, the
    width becomes the computed width, nothing else of the field changes,
    and the cache gains at most the entry just measured. *)
Lemma render_visible (h : Host) (w : World) (el : TextElement) (b : BlockId) :
  visible_ (this w) = true -> textElement_ (this w) = Some el ->
  sourceBlock_ (this w) = Some b ->
  let w' := after (render_ h) w in
  completion (render_ h) w = Normal tt
  /\ this w' = set_width (computed_width h (this w) (cacheWidths_ w)) (this w)
  /\ blocks w' = blocks w
  /\ cacheWidths_ w'
     = match cache_lookup (cacheWidths_ w) (cache_key el) with
       | Some _ => cacheWidths_ w
       | None => insert (cache_key el) (measured_width h el) <$> cacheWidths_ w
       end.
Proof.
  intros Hv Hel Hb. cbv zeta.
  destruct w as [f bl cache r en nn cl].
  destruct f as [nm tx sb vis ats vd sz mx fg te mw bx ed cu cv pa]. simpl in *. subst.
  unfold render_, computed_width, text_width, measured_width, textLength, cache_key.
  exec.
  destruct (cache_lookup cache _) as [cached|] eqn:Hlook; simpl;
    [|destruct (measure h _ _) as [m|]; simpl; destruct cache as [c|]; simpl];
    destruct ed, pa, bx, (RTL (bl b)), (isShadow (bl b));
    simpl; repeat split.
Qed.

Lemma computed_width_cache (h : Host) (f : Field) (c1 c2 : option (gmap (list N) Q)) :
  (forall el, textElement_ f = Some el -> text_width h el c1 = text_width h el c2) ->
  computed_width h f c1 = computed_width h f c2.
Proof.
  intros H. unfold computed_width. destruct (textElement_ f) as [el|]; [|reflexivity].
  rewrite (H el eq_refl). reflexivity.
Qed.

(** After [render_] on a visible, initialised field the stored width is the
    one a further [render_] would compute: the width is valid. *)
Lemma render_valid (h : Host) (w : World) (el : TextElement) (b : BlockId) :
  visible_ (this w) = true -> textElement_ (this w) = Some el ->
  sourceBlock_ (this w) = Some b ->
  let w' := after (render_ h) w in
  computed_width h (this w') (cacheWidths_ w') = computed_width h (this w) (cacheWidths_ w)
  /\ width (size_ (this w')) = computed_width h (this w) (cacheWidths_ w).
Proof.
  intros Hv Hel Hb. cbv zeta.
  destruct (render_visible h w el b Hv Hel Hb) as (_ & Hthis & _ & Hcache).
  rewrite Hthis, Hcache. split; [|reflexivity].
  transitivity (computed_width h (this w)
                  match cache_lookup (cacheWidths_ w) (cache_key el) with
                  | Some _ => cacheWidths_ w
                  | None => insert (cache_key el) (measured_width h el) <$> cacheWidths_ w
                  end); [reflexivity|].
  apply computed_width_cache. intros el' Hel'. rewrite Hel in Hel'.
  injection Hel' as <-.
  destruct (cache_lookup (cacheWidths_ w) (cache_key el)) eqn:Hlook; [reflexivity|].
  destruct (text_width_write h el (cacheWidths_ w) Hlook) as [-> ->]. reflexivity.
Qed.

(** [getSize] on a visible, initialised field whose stored width is valid
    returns that width; it renders again only if the width is 0. *)
Lemma getSize_valid (h : Host) (w : World) (el : TextElement) (b : BlockId) :
  visible_ (this w) = true -> textElement_ (this w) = Some el ->
  sourceBlock_ (this w) = Some b ->
  width (size_ (this w)) = computed_width h (this w) (cacheWidths_ w) ->
  (exists s, completion (getSize h) w = Normal s
             /\ width s = computed_width h (this w) (cacheWidths_ w))
  /\ (Qfalsy (width (size_ (this w))) = false ->
      getSize h w = (Normal (size_ (this w)), w)).
Proof.
  intros Hv Hel Hb Hvalid. unfold getSize. exec.
  destruct (Qfalsy (width (size_ (this w)))) eqn:Hz; simpl.
  - split; [|discriminate].
    destruct (render_visible h w el b Hv Hel Hb) as (Hok & Hthis & _).
    unfold completion, after in *.
    destruct (render_ h w) as [[[]|e] w']; simpl in *; [|discriminate].
    eexists. split; [reflexivity|]. rewrite Hthis. reflexivity.
  - split; [|reflexivity]. eexists. split; [reflexivity | exact Hvalid].
Qed.

(** [getSize] on a hidden field returns width 0. *)
Lemma getSize_hidden (h : Host) (w : World) :
  visible_ (this w) = false -> width (size_ (this w)) = 0%Q ->
  exists s, completion (getSize h) w = Normal s /\ width s = 0%Q.
Proof.
  intros Hv Hflat. unfold getSize. exec. rewrite Hflat. simpl.
  destruct (render_hidden h w (or_introl Hv)) as (Hok & Hthis & _).
  unfold completion, after in *.
  destruct (render_ h w) as [[[]|e] w']; simpl in *; [|discriminate].
  eexists. split; [reflexivity|]. rewrite Hthis. reflexivity.
Qed.

(** [setVisible(false)] on an initialised field: normal return, the field
    hidden with width 0, nothing else of it changed. *)
Lemma setVisible_false (h : Host) (w : World) :
  initialized w -> hidden_flat w ->
  let w' := after (setVisible h false) w in
  completion (setVisible h false) w = Normal tt
  /\ visible_ (this w') = false
  /\ width (size_ (this w')) = 0%Q
  /\ textElement_ (this w') = textElement_ (this w)
  /\ sourceBlock_ (this w') = sourceBlock_ (this w)
  /\ fieldGroup_ (this w') = fieldGroup_ (this w)
  /\ computed_width h (this w') (cacheWidths_ w')
     = computed_width h (this w) (cacheWidths_ w).
Proof.
  intros ([g Hg] & _ & _) Hflat. cbv zeta. unfold setVisible. exec.
  destruct (visible_ (this w)) eqn:Hv; simpl.
  - rewrite Hg. simpl.
    set (w1 := with_calls _ _).
    destruct (render_hidden h w1 (or_introl eq_refl)) as (Hok & Hthis & Hcache & _).
    unfold completion, after in *.
    destruct (render_ h w1) as [[[]|e] w']; simpl in *; [|discriminate].
    rewrite Hthis, Hcache. subst w1. simpl. repeat split; auto.
  - repeat split; auto.
Qed.

Lemma bind_normal {A B} (m : M A) (k : A -> M B) (w : World) (a : A) :
  completion m w = Normal a -> bind m k w = k a (after m w).
Proof.
  unfold completion, after, bind. destruct (m w) as [[a'|e] w']; simpl; congruence.
Qed.

(** [setVisible(true)] on a hidden, initialised field: normal return, and
    the width is already the computed one when it returns. *)
Lemma setVisible_true (h : Host) (w : World) (el : TextElement) (b : BlockId) :
  is_Some (fieldGroup_ (this w)) -> textElement_ (this w) = Some el ->
  sourceBlock_ (this w) = Some b -> visible_ (this w) = false ->
  let w' := after (setVisible h true) w in
  completion (setVisible h true) w = Normal tt
  /\ visible_ (this w') = true
  /\ textElement_ (this w') = Some el
  /\ sourceBlock_ (this w') = Some b
  /\ fieldGroup_ (this w') = fieldGroup_ (this w)
  /\ width (size_ (this w')) = computed_width h (this w) (cacheWidths_ w)
  /\ computed_width h (this w') (cacheWidths_ w')
     = computed_width h (this w) (cacheWidths_ w).
Proof.
  intros [g Hg] Hel Hb Hv. cbv zeta. unfold setVisible. exec.
  rewrite Hv. simpl. rewrite Hg. simpl.
  set (w1 := with_calls _ _).
  destruct (render_visible h w1 el b eq_refl Hel Hb) as (Hok & Hthis & _).
  destruct (render_valid h w1 el b eq_refl Hel Hb) as (Hco & Hwd).
  unfold completion, after in *.
  destruct (render_ h w1) as [[[]|e] w']; simpl in *; [|discriminate].
  rewrite Hco, Hwd, Hthis. subst w1. simpl. repeat split; auto.
Qed.

(** Showing a hidden, initialised field, then reading its size. *)
Lemma show_then_getSize (h : Host) (w : World) :
  initialized w -> visible_ (this w) = false ->
  let w1 := after (setVisible h true) w in
  let W := computed_width h (this w) (cacheWidths_ w) in
  completion (setVisible h true) w = Normal tt
  /\ width (size_ (this w1)) = W
  /\ (exists s, completion (getSize h) w1 = Normal s /\ width s = W)
  /\ (Qfalsy W = false -> getSize h w1 = (Normal (size_ (this w1)), w1)).
Proof.
  intros (Hg & [el Hel] & [b Hb]) Hv. cbv zeta.
  destruct (setVisible_true h w el b Hg Hel Hb Hv)
    as (Hok & Hv' & Hel' & Hb' & _ & Hwd & Hco).
  destruct (getSize_valid h _ el b Hv' Hel' Hb') as (Hs & Hpure).
  { rewrite Hwd, Hco. reflexivity. }
  rewrite Hco in Hs. rewrite Hwd in Hpure. auto.
Qed.

(** C8 (amended): on an initialised field [setVisible(false)] followed by
    [getSize()] returns width 0.  [setVisible(true)] on a hidden
    initialised field returns normally with the width already recomputed,
    by its own call of [render_]: the stored width is the computed width
    (text width from cache or measurement, plus paddings and arrow) before
    [getSize()] is called; [getSize()] then returns this width, and when it
    is not 0 does so without rendering or changing anything.  Hiding and
    then showing a visible field gives back the width a render of it
    computes. *)
Theorem visibility_and_width (h : Host) (w : World) :
  initialized w -> hidden_flat w ->
  (exists s, completion (setVisible h false >> getSize h) w = Normal s
             /\ width s = 0%Q)
  /\ (visible_ (this w) = false ->
      let w1 := after (setVisible h true) w in
      let W := computed_width h (this w) (cacheWidths_ w) in
      completion (setVisible h true) w = Normal tt
      /\ width (size_ (this w1)) = W
      /\ (exists s, completion (getSize h) w1 = Normal s /\ width s = W)
      /\ (Qfalsy W = false -> getSize h w1 = (Normal (size_ (this w1)), w1)))
  /\ (visible_ (this w) = true ->
      exists s,
        completion (setVisible h false >> setVisible h true >> getSize h) w = Normal s
        /\ width s = computed_width h (this w) (cacheWidths_ w)).
Proof.
  intros Hinit Hflat.
  destruct (setVisible_false h w Hinit Hflat)
    as (Hok & Hv & Hz & Hel & Hb & Hg & Hco).
  assert (Hinit' : initialized (after (setVisible h false) w)).
  { unfold initialized. rewrite Hg, Hel, Hb. exact Hinit. }
  split; [|split].
  - unfold completion at 1. rewrite (bind_normal _ _ w tt Hok).
    apply getSize_hidden; assumption.
  - intros Hhid. apply show_then_getSize; assumption.
  - intros _.
    destruct (show_then_getSize h _ Hinit' Hv) as (Hok' & _ & (s & Hs & Hw) & _).
    exists s. unfold completion at 1.
    rewrite (bind_normal _ _ w tt Hok), (bind_normal _ _ _ tt Hok').
    split; [exact Hs | rewrite Hw; exact Hco].
Qed.

Lemma visibility_and_width_witness :
  let w := installed "abc" 2%N in
  (exists s, completion (setVisible sample_host false >> getSize sample_host) w = Normal s
             /\ width s = 0%Q)
  /\ (exists s,
        completion (setVisible sample_host false >> setVisible sample_host true
                    >> getSize sample_host) w = Normal s
        /\ width s = computed_width sample_host (this w) (cacheWidths_ w))
  /\ width (size_ (this (after (setVisible sample_host true) (hidden "abc" 2%N))))
     = computed_width sample_host (this (hidden "abc" 2%N)) (cacheWidths_ (hidden "abc" 2%N)).
Proof.
  cbv zeta.
  assert (Hi : initialized (installed "abc" 2%N))
    by (vm_compute; split; [|split]; eexists; reflexivity).
  assert (Hi' : initialized (hidden "abc" 2%N))
    by (vm_compute; split; [|split]; eexists; reflexivity).
  destruct (visibility_and_width sample_host (installed "abc" 2%N) Hi
              ltac:(intros Hv; discriminate Hv)) as (H1 & _ & H3).
  destruct (visibility_and_width sample_host (hidden "abc" 2%N) Hi'
              ltac:(intros _; reflexivity)) as (_ & H2 & _).
  split; [exact H1|]. split; [exact (H3 eq_refl)|].
  exact (proj1 (proj2 (H2 eq_refl))).
Defined.

(** C8 as stated fails on where the width comes back: when
    [setVisible(true)] returns, the width of the hidden field "abc" is
    already 27 (three code units of 7 pixels and the padding 6), the
    measurement is in the log, and [getSize()] is a plain read that renders
    nothing. *)
Lemma setVisible_true_renders_at_once :
  let w := hidden "abc" 2%N in
  let w1 := after (setVisible sample_host true) w in
  width (size_ (this w)) = 0%Q
  /\ width (size_ (this w1)) = 27%Q
  /\ calls w1 = calls w ++ [style_set 100%N "display" (VStr (lit "block"));
                            getComputedTextLength 101%N;
                            setAttribute 101%N "x" (ANum (27 # 2))]
  /\ getSize sample_host w1 = (Normal (size_ (this w1)), w1).
Proof. vm_compute. repeat split. Qed.

(** The computed width can be 0: the label whose text measures 0 has no
    padding to add, and showing it leaves the width at 0, which [getSize]
    answers with one more [render_]. *)
Example shown_width_can_be_zero :
  let w1 := after (setVisible flat_host true) hidden_label in
  width (size_ (this w1)) = 0%Q
  /\ completion (getSize flat_host) w1 = Normal {| width := 0; height := 32 |}
  /\ length (calls (after (getSize flat_host) w1)) = (length (calls w1) + 2)%nat.
Proof. vm_compute. repeat split. Qed.

(** *** Reaching an initialised field *)

Lemma wp_bind {A B} (m : M A) (k : A -> M B) (Q : B -> World -> Prop) (w : World) :
  wp m (fun a w' => wp (k a) Q w') w -> wp (bind m k) Q w.
Proof. unfold wp, bind. destruct (m w) as [[a|e] w']; auto. Qed.

Lemma wp_mono {A} (m : M A) (Q Q' : A -> World -> Prop) (w : World) :
  wp m Q w -> (forall a w', Q a w' -> Q' a w') -> wp m Q' w.
Proof. unfold wp. destruct (m w) as [[a|e] w']; auto. Qed.

Lemma wp_run {A} (m : M A) (Q : A -> World -> Prop) (w : World) :
  wp m Q w <-> exists a, completion m w = Normal a /\ Q a (after m w).
Proof.
  unfold wp, completion, after. destruct (m w) as [[a|e] w']; simpl; split.
  - eauto.
  - intros (a' & [= <-] & HQ). exact HQ.
  - intros [].
  - intros (a' & [=] & _).
Qed.

Lemma wp_sourceBlock {A} (p : Block -> A) (Q : A -> World -> Prop) (w : World) (b : BlockId) :
  sourceBlock_ (this w) = Some b -> Q (p (blocks w b)) w -> wp (sourceBlock p) Q w.
Proof. intros Hb HQ. unfold wp, sourceBlock. rewrite Hb. exact HQ. Qed.

Lemma same_field_refl (w : World) : same_field w w.
Proof. repeat split. Qed.

Lemma same_field_trans (w1 w2 w3 : World) :
  same_field w1 w2 -> same_field w2 w3 -> same_field w1 w3.
Proof. unfold same_field. intuition congruence. Qed.

Lemma wp_getClickTarget_ (w : World) (b : BlockId) (g : Node) :
  sourceBlock_ (this w) = Some b -> fieldGroup_ (this w) = Some g ->
  wp getClickTarget_ (fun r w' => w' = w /\ is_Some r) w.
Proof.
  intros Hb Hg. unfold wp. rewrite (getClickTarget_run w b Hb), Hg.
  split; [reflexivity|]. destruct (_ <=? 1)%nat; eauto.
Qed.

Lemma wp_updateEditable (w : World) (b : BlockId) (g : Node) :
  sourceBlock_ (this w) = Some b -> fieldGroup_ (this w) = Some g ->
  wp updateEditable (fun _ w' => same_field w w') w.
Proof.
  intros Hb Hg. unfold updateEditable.
  apply wp_bind. unfold wp at 1, get. rewrite Hg.
  apply wp_bind. unfold wp at 1.
  destruct (EDITABLE (this w)); simpl; [|apply same_field_refl].
  apply wp_bind, (wp_sourceBlock _ _ _ b Hb).
  destruct (isEditable (blocks w b)).
  - do 2 (apply wp_bind; unfold wp at 1, call).
    apply wp_bind. eapply wp_mono; [apply (wp_getClickTarget_ _ b g); assumption|].
    intros r w' [-> [t ->]]. apply wp_bind. unfold wp at 1, get. simpl.
    unfold wp, call. simpl. repeat split.
  - do 2 (apply wp_bind; unfold wp at 1, call).
    apply wp_bind. eapply wp_mono; [apply (wp_getClickTarget_ _ b g); assumption|].
    intros r w' [-> [t ->]]. unfold wp, call. simpl. repeat split.
Qed.

Lemma wp_getSize_before_init (h : Host) (w : World) :
  textElement_ (this w) = None ->
  wp (getSize h) (fun _ w' => same_field w w') w.
Proof.
  intros Hte. unfold getSize. apply wp_bind. unfold wp at 1, get.
  apply wp_bind. destruct (Qfalsy (width (size_ (this w)))); simpl.
  - destruct (render_hidden h w (or_intror Hte)) as (Hok & Hthis & _ & Hbl).
    apply wp_run. exists tt. split; [exact Hok|].
    unfold wp, get. simpl. unfold same_field. rewrite Hthis, Hbl. repeat split.
  - unfold wp, ret, get. simpl. apply same_field_refl.
Qed.

Lemma wp_updateTextNode_ (w : World) (el : TextElement) (b : BlockId) :
  textElement_ (this w) = Some el -> sourceBlock_ (this w) = Some b ->
  wp updateTextNode_
     (fun _ w' => sourceBlock_ (this w') = Some b
                  /\ fieldGroup_ (this w') = fieldGroup_ (this w)
                  /\ is_Some (textElement_ (this w'))
                  /\ visible_ (this w') = visible_ (this w)
                  /\ text_ (this w') = text_ (this w)
                  /\ blocks w' = blocks w
                  /\ width (size_ (this w')) = 0%Q) w.
Proof.
  intros Hel Hb. unfold wp. rewrite (updateTextNode_run w el b Hel Hb). simpl.
  repeat split; eauto.
Qed.

(** [init] on a bound field that has not been initialised returns
    normally and leaves an initialised field of width 0. *)
Lemma wp_init (h : Host) (w : World) (b : BlockId) :
  fieldGroup_ (this w) = None -> textElement_ (this w) = None ->
  sourceBlock_ (this w) = Some b ->
  wp (init h)
     (fun _ w' => initialized w' /\ width (size_ (this w')) = 0%Q
                  /\ visible_ (this w') = visible_ (this w)
                  /\ text_ (this w') = text_ (this w)
                  /\ sourceBlock_ (this w') = Some b) w.
Proof.
  intros Hg Hte Hb. unfold init.
  apply wp_bind. unfold wp at 1, get. rewrite Hg. simpl.
  apply wp_bind. unfold wp at 1, Blockly_createSvgElement.
  apply wp_bind. unfold wp at 1, assign.
  set (g := next_node w). set (w1 := with_this _ _).
  assert (Hg1 : fieldGroup_ (this w1) = Some g) by reflexivity.
  assert (Hb1 : sourceBlock_ (this w1) = Some b) by exact Hb.
  assert (Hte1 : textElement_ (this w1) = None) by exact Hte.
  assert (Hv1 : visible_ (this w1) = visible_ (this w)) by reflexivity.
  assert (Ht1 : text_ (this w1) = text_ (this w)) by reflexivity.
  clearbody w1.
  apply wp_bind. unfold wp at 1, get.
  apply wp_bind.
  apply (wp_mono _ (fun _ w' => same_field w1 w' )).
  { destruct (visible_ (this w1)); unfold wp, when, ret, call; simpl; repeat split. }
  intros _ w2 H2.
  apply wp_bind.
  apply (wp_mono _ (fun _ w' => w' = w2)).
  { unfold wp, getArgTypes, bind, get, ret. destruct (argType_ (this w2)) as [[|]|]; reflexivity. }
  intros argTypes ? ->.
  assert (Hb2 : sourceBlock_ (this w2) = Some b).
  { destruct H2 as (-> & _). exact Hb1. }
  apply wp_bind.
  apply (wp_mono _ (fun _ w' => same_field w2 w')).
  { destruct argTypes as [a|]; [|apply same_field_refl].
    apply wp_bind, (wp_sourceBlock _ _ _ b Hb2).
    destruct (isShadow (blocks w2 b)).
    - apply wp_bind, (wp_sourceBlock _ _ _ b Hb2). unfold wp, call. simpl.
      repeat split.
    - unfold wp, call. simpl. repeat split. }
  intros _ w3 H3.
  pose proof (same_field_trans _ _ _ H2 H3) as H13.
  apply wp_bind.
  eapply wp_mono.
  { apply (wp_getSize_before_init h w3). destruct H13 as (_ & _ & -> & _). exact Hte1. }
  intros size w4 H4. simpl in H4.
  pose proof (same_field_trans _ _ _ H13 H4) as H14.
  destruct H14 as (Hb4 & Hg4 & Hte4 & Hv4 & Ht4 & Hbl4). simpl in *.
  apply wp_bind, (wp_sourceBlock _ _ _ b); [congruence|].
  apply wp_bind. unfold wp at 1, Blockly_createSvgElement.
  apply wp_bind. unfold wp at 1, assign.
  set (el := {| te_node := next_node w4; className := _; textContent := [] |}).
  set (w5 := with_this _ _).
  apply wp_bind.
  eapply wp_mono; [apply (wp_updateEditable w5 b g); simpl; congruence|].
  intros _ w6 (Hb6 & Hg6 & Hte6 & Hv6 & Ht6 & Hbl6). simpl in *.
  apply wp_bind, (wp_sourceBlock _ _ _ b); [congruence|].
  apply wp_bind. unfold wp at 1, call.
  apply wp_bind.
  eapply wp_mono; [apply (wp_getClickTarget_ _ b g); simpl; congruence|].
  intros r ? [-> [tg ->]].
  apply wp_bind. apply wp_bind. unfold wp at 1, call. unfold wp at 1, assign.
  eapply wp_mono; [apply (wp_updateTextNode_ _ el b); simpl; congruence|].
  intros _ w7 (Hb7 & Hg7 & Hte7 & Hv7 & Ht7 & Hbl7 & Hw7). simpl in *.
  unfold initialized. rewrite Hg7, Hg6, Hg4, Hg1, Hb7.
  repeat split; eauto; congruence.
Qed.

Lemma ready_init (h : Host) (w : World) (b : BlockId) :
  fieldGroup_ (this w) = None -> textElement_ (this w) = None ->
  sourceBlock_ (this w) = Some b ->
  wp (init h) (fun _ w' => ready w') w.
Proof.
  intros Hg Hte Hb. eapply wp_mono; [apply (wp_init h w b); assumption|].
  intros _ w' (Hi & Hz & _). split; [exact Hi | intros _; exact Hz].
Qed.

Lemma ready_setVisible (h : Host) (w : World) (visible : bool) :
  ready w -> wp (setVisible h visible) (fun _ w' => ready w') w.
Proof.
  intros [Hi Hflat]. apply wp_run. exists tt. destruct visible.
  - destruct (visible_ (this w)) eqn:Hv.
    + unfold completion, after, setVisible, bind, get. rewrite Hv. simpl.
      split; [reflexivity | split; assumption].
    + destruct Hi as (Hg & [el Hel] & [b Hb]).
      destruct (setVisible_true h w el b Hg Hel Hb Hv)
        as (Hok & Hv' & Hel' & Hb' & Hg' & _).
      split; [exact Hok|]. unfold ready, initialized, hidden_flat.
      rewrite Hg', Hel', Hb', Hv'. repeat split; eauto. discriminate.
  - destruct (setVisible_false h w Hi Hflat) as (Hok & Hv & Hz & Hel & Hb & Hg & _).
    split; [exact Hok|]. unfold ready, initialized, hidden_flat.
    rewrite Hg, Hel, Hb. split; [exact Hi | intros _; exact Hz].
Qed.

Lemma ready_render (h : Host) (w : World) :
  ready w -> wp (render_ h) (fun _ w' => ready w') w.
Proof.
  intros [(Hg & [el Hel] & [b Hb]) Hflat]. apply wp_run. exists tt.
  unfold ready, initialized, hidden_flat.
  destruct (visible_ (this w)) eqn:Hv.
  - destruct (render_visible h w el b Hv Hel Hb) as (Hok & -> & _).
    split; [exact Hok|]. simpl. rewrite Hel, Hb, Hv. repeat split; eauto. discriminate.
  - destruct (render_hidden h w (or_introl Hv)) as (Hok & -> & _).
    split; [exact Hok|]. simpl. rewrite Hel, Hb. repeat split; eauto.
Qed.

Lemma ready_getSize (h : Host) (w : World) :
  ready w -> wp (getSize h) (fun _ w' => ready w') w.
Proof.
  intros Hr. unfold getSize. apply wp_bind. unfold wp at 1, get.
  apply wp_bind. destruct (Qfalsy (width (size_ (this w)))); simpl.
  - eapply wp_mono; [apply ready_render; exact Hr|]. intros [] w' Hr'. exact Hr'.
  - exact Hr.
Qed.

Lemma ready_setText (w : World) (x : JSValue) :
  ready w -> wp (setText x) (fun _ w' => ready w') w.
Proof.
  intros Hr. unfold setText. destruct (is_null x); [exact Hr|].
  apply wp_bind. unfold wp at 1, get. case_bool_decide; [exact Hr|].
  apply wp_bind. unfold wp at 1, assign.
  destruct Hr as [(Hg & [el Hel] & [b Hb]) _].
  apply wp_bind. eapply wp_mono; [apply (wp_updateTextNode_ _ el b); assumption|].
  intros _ w' (Hb' & Hg' & Hel' & _ & _ & _ & Hz). simpl in Hg'.
  apply wp_bind. unfold wp at 1, get. rewrite Hb'.
  apply wp_bind, (wp_sourceBlock _ _ _ b Hb').
  assert (Hr' : ready w').
  { unfold ready, initialized, hidden_flat. rewrite Hg', Hb'. repeat split; eauto. }
  destruct (rendered (blocks w' b)); [|exact Hr'].
  unfold wp, when, bind, call. simpl. exact Hr'.
Qed.

Lemma ready_setValue (w : World) (x : JSValue) :
  ready w -> wp (setValue x) (fun _ w' => ready w') w.
Proof.
  intros Hr. destruct (decide (x = VNull)) as [->|Hx]; [exact Hr|].
  destruct (loose_eq (VStr (text_ (this w))) x) eqn:Heq.
  - unfold wp, setValue. assert (is_null x = false) as ->
      by (destruct x; try reflexivity; congruence).
    unfold bind, getValue, getText, get. rewrite Heq. exact Hr.
  - unfold wp. rewrite (setValue_steps w x Hx Heq). apply ready_setText.
    unfold ready, initialized, hidden_flat. rewrite announced_this. exact Hr.
Qed.

(** ** Further properties *)

(** *** The constructor *)

(** X1 (constructor): a field built from the prototype has the text
    [String(x)] of its argument, except that null, and any value loosely
    equal to the empty string (0, false), leave the text empty; it has the
    standard size and display length and the given validator, is bound to
    no block, and building it fires no event and makes no call. *)
Theorem Field_new_result (h : Host) (x : JSValue)
    (v : option (JSValue -> JSValue)) (w : World) :
  this w = prototype ->
  let w' := after (Field_new h x v) w in
  completion (Field_new h x v) w = Normal tt
  /\ text_ (this w')
     = (if is_null x || loose_eq (VStr []) x then [] else ToString x)
  /\ size_ (this w') = {| width := FIELD_WIDTH h; height := FIELD_HEIGHT h |}
  /\ maxDisplayLength (this w') = MAX_DISPLAY_LENGTH h
  /\ validator_ (this w') = v
  /\ sourceBlock_ (this w') = None
  /\ calls w' = calls w.
Proof.
  intros Hp. cbv zeta. destruct w as [f bl cache r en nn cl]. simpl in Hp. subst f.
  unfold Field_new, setValue, setText, setValidator, updateTextNode_. exec.
  destruct (is_null x); simpl; [repeat split|].
  destruct (loose_eq (VStr []) x); simpl; [repeat split|].
  case_bool_decide as E; simpl; [rewrite E|]; repeat split.
Qed.

Lemma Field_new_result_witness :
  let w' := after (Field_new sample_host (VStr (lit "abc")) None) fresh_world in
  completion (Field_new sample_host (VStr (lit "abc")) None) fresh_world = Normal tt
  /\ text_ (this w') = lit "abc"
  /\ size_ (this w') = {| width := 48; height := 32 |}
  /\ maxDisplayLength (this w') = 8
  /\ validator_ (this w') = None
  /\ sourceBlock_ (this w') = None
  /\ calls w' = [].
Proof.
  exact (Field_new_result sample_host (VStr (lit "abc")) None fresh_world eq_refl).
Defined.

(** A number or boolean that is loosely equal to the empty string leaves
    the text empty. *)
Example Field_new_zero :
  text_ (this (after (Field_new sample_host (VNum 0) None) fresh_world)) = []
  /\ text_ (this (after (Field_new sample_host (VBool false) None) fresh_world)) = []
  /\ text_ (this (after (Field_new sample_host (VNum 1) None) fresh_world)) = lit "1".
Proof. vm_compute. repeat split. Qed.

(** *** Changing the text *)

(** [setText] with a new text on an initialised field. *)
Lemma setText_run (w : World) (x : JSValue) (el : TextElement) (b : BlockId) :
  x <> VNull -> ToString x <> text_ (this w) ->
  textElement_ (this w) = Some el -> sourceBlock_ (this w) = Some b ->
  let w1 := with_this (set_text_ (ToString x)) w in
  let el' := shown_element w1 b (te_node el) in
  let w' := after (setText x) w in
  completion (setText x) w = Normal tt
  /\ this w' = set_width 0 (set_textElement_ (Some el') (set_text_ (ToString x) (this w)))
  /\ calls w'
     = calls w
       ++ [setAttribute (te_node el) "class" (AStr (className el'));
           removeChildren (te_node el);
           appendTextNode (te_node el) (textContent el')]
       ++ (if rendered (blocks w b)
           then [block_render b; block_bumpNeighbours_ b] else [])
  /\ blocks w' = blocks w
  /\ cacheWidths_ w' = cacheWidths_ w
  /\ cacheReference_ w' = cacheReference_ w.
Proof.
  intros Hx Hne Hel Hb. cbv zeta. unfold setText.
  assert (is_null x = false) as -> by (destruct x; try reflexivity; congruence).
  exec. rewrite bool_decide_false by exact Hne. simpl.
  rewrite (updateTextNode_run (with_this (set_text_ (ToString x)) w) el b Hel Hb).
  simpl. repeat (rewrite Hb; simpl).
  destruct (rendered (blocks w b)); simpl; rewrite <- ?app_assoc; simpl;
    repeat split.
Qed.

(** X10 (setText, order of effects): a new text on an initialised field is
    stored, shown, and the width is marked stale; the calls made are the
    three writes to the text node and then, only on a rendered block, the
    block's render followed by its bump of the neighbours. *)
Theorem setText_shows_then_renders (w : World) (x : JSValue) (el : TextElement) (b : BlockId) :
  x <> VNull -> ToString x <> text_ (this w) ->
  textElement_ (this w) = Some el -> sourceBlock_ (this w) = Some b ->
  let w' := after (setText x) w in
  let shown := display_text (RTL (blocks w b)) (maxDisplayLength (this w)) (ToString x) in
  let cls := display_class (maxDisplayLength (this w)) (ToString x) in
  completion (setText x) w = Normal tt
  /\ text_ (this w') = ToString x
  /\ textElement_ (this w')
     = Some {| te_node := te_node el; className := cls; textContent := shown |}
  /\ width (size_ (this w')) = 0%Q
  /\ calls w'
     = calls w
       ++ [setAttribute (te_node el) "class" (AStr cls);
           removeChildren (te_node el);
           appendTextNode (te_node el) shown]
       ++ (if rendered (blocks w b)
           then [block_render b; block_bumpNeighbours_ b] else []).
Proof.
  intros Hx Hne Hel Hb. cbv zeta.
  destruct (setText_run w x el b Hx Hne Hel Hb) as (Hok & Hthis & Hcalls & _).
  rewrite Hthis, Hcalls. repeat split. exact Hok.
Qed.

Lemma setText_shows_then_renders_witness :
  let w := installed "abc" 2%N in
  let w' := after (setText (VNum 12345678901)) w in
  text_ (this w') = lit "12345678901"
  /\ (textContent <$> textElement_ (this w')) = Some (lit "123456" ++ [ELLIPSIS])
  /\ width (size_ (this w')) = 0%Q
  /\ calls w'
     = calls w
       ++ [setAttribute 101%N "class" (AStr (lit "blocklyText blocklyTextTruncated"));
           removeChildren 101%N;
           appendTextNode 101%N (lit "123456" ++ [ELLIPSIS]);
           block_render 2%N; block_bumpNeighbours_ 2%N].
Proof.
  cbv zeta.
  destruct (setText_shows_then_renders (installed "abc" 2%N) (VNum 12345678901)
              {| te_node := 101%N; className := lit "blocklyText";
                 textContent := lit "abc" |} 2%N)
    as (_ & Ht & Hel & Hz & Hc);
    [discriminate | vm_compute; discriminate | reflexivity | reflexivity |].
  rewrite Hel, Hc. repeat split; assumption.
Defined.

(** X11 (setText, idempotence): once [setText(x)] has run, running it again
    changes nothing at all: no write to the text node, no render. *)
Theorem setText_twice (w : World) (x : JSValue) :
  setText x (after (setText x) w) = (Normal tt, after (setText x) w).
Proof.
  destruct (decide (x = VNull)) as [->|Hx]; [reflexivity|].
  destruct (setText_effect w x) as (Ht & _ & _). specialize (Ht Hx).
  unfold setText at 1.
  assert (is_null x = false) as -> by (destruct x; try reflexivity; congruence).
  unfold bind, get. simpl. rewrite Ht. rewrite bool_decide_true by reflexivity.
  reflexivity.
Qed.

(** X12 (setText, no event): [setText] never fires a change event, whatever
    the field, the argument and the event gate; only [setValue] does. *)
Theorem setText_fires_nothing (w : World) (x : JSValue) :
  fired (calls (after (setText x) w)) = fired (calls w).
Proof.
  destruct (setText_effect w x) as (_ & Hq & _).
  apply adds_quietly_fired. exact Hq.
Qed.

(** *** What the text node shows *)

Lemma no_break_clean (s : jsstring) :
  Forall (fun c => is_whitespace c = true -> c = NBSP) (no_break s).
Proof.
  unfold no_break. induction s as [|c s IH]; simpl; constructor; [|exact IH].
  destruct (is_whitespace c) eqn:E; [reflexivity | congruence].
Qed.

Lemma display_text_clean (rtl : bool) (n : Z) (t : jsstring) :
  Forall (fun c => is_whitespace c = true -> c = NBSP) (display_text rtl n t).
Proof.
  unfold display_text. cbv zeta. case_bool_decide.
  - repeat constructor.
  - destruct rtl; [|apply no_break_clean].
    apply Forall_app. split; [apply no_break_clean|].
    repeat constructor. vm_compute. discriminate.
Qed.

Lemma display_text_nonempty (rtl : bool) (n : Z) (t : jsstring) :
  display_text rtl n t <> [].
Proof.
  unfold display_text. cbv zeta. case_bool_decide as E; [discriminate|].
  destruct rtl; [|exact E]. destruct (no_break _); discriminate.
Qed.

Lemma display_text_length (rtl : bool) (n : Z) (t : jsstring) :
  Z.of_nat (length (display_text rtl n t))
  <= Z.max 1 n + (if rtl then 1 else 0).
Proof.
  unfold display_text, no_break, substring0. cbv zeta.
  case_bool_decide as E; [simpl; destruct rtl; lia|].
  set (body := map _ _) in *.
  assert (Hbody : Z.of_nat (length body) <= Z.max 1 n).
  { subst body. rewrite length_map.
    destruct (Z.gtb_spec (Z.of_nat (length t)) n) as [Hlong|Hshort].
    - rewrite length_app, length_take. simpl. lia.
    - lia. }
  clearbody body. destruct rtl; [rewrite length_app; simpl length|]; lia.
Qed.

(** X14 (text node, never blank): after [updateTextNode_] on an initialised
    field the text node is not empty, and the only whitespace code unit it
    can hold is the non-breaking space (no space, tab or newline that the
    renderer would collapse). *)
Theorem updateTextNode_never_blank (w : World) (el : TextElement) (b : BlockId) :
  textElement_ (this w) = Some el -> sourceBlock_ (this w) = Some b ->
  exists shown,
    (textContent <$> textElement_ (this (after updateTextNode_ w))) = Some shown
    /\ shown <> []
    /\ Forall (fun c => is_whitespace c = true -> c = NBSP) shown.
Proof.
  intros Hel Hb. unfold after. rewrite (updateTextNode_run w el b Hel Hb). simpl.
  eexists. split; [reflexivity|]. split.
  - apply (display_text_nonempty (RTL (blocks w b)) (maxDisplayLength (this w))
             (text_ (this w))).
  - apply (display_text_clean (RTL (blocks w b)) (maxDisplayLength (this w))
             (text_ (this w))).
Qed.

Lemma updateTextNode_never_blank_witness :
  exists shown,
    (textContent <$> textElement_ (this (after updateTextNode_ (installed "a b" 3%N))))
    = Some shown
    /\ shown <> []
    /\ Forall (fun c => is_whitespace c = true -> c = NBSP) shown.
Proof.
  exact (updateTextNode_never_blank (installed "a b" 3%N)
           {| te_node := 101%N; className := lit "blocklyText";
              textContent := [97; 160; 98; 8207]%N |} 3%N eq_refl eq_refl).
Defined.

(** X15 (text node, length): the text node holds at most [maxDisplayLength]
    code units (at least room for one), plus the right-to-left mark on a
    right-to-left block; a text that is cut takes one code unit less than
    [maxDisplayLength] allows. *)
Theorem updateTextNode_length_bound (w : World) (el : TextElement) (b : BlockId) :
  textElement_ (this w) = Some el -> sourceBlock_ (this w) = Some b ->
  exists shown,
    (textContent <$> textElement_ (this (after updateTextNode_ w))) = Some shown
    /\ Z.of_nat (length shown)
       <= Z.max 1 (maxDisplayLength (this w)) + (if RTL (blocks w b) then 1 else 0)
    /\ (2 <= maxDisplayLength (this w) < Z.of_nat (length (text_ (this w))) ->
        RTL (blocks w b) = false ->
        Z.of_nat (length shown) = maxDisplayLength (this w) - 1).
Proof.
  intros Hel Hb. unfold after. rewrite (updateTextNode_run w el b Hel Hb). simpl.
  eexists. split; [reflexivity|]. split.
  - apply (display_text_length (RTL (blocks w b)) (maxDisplayLength (this w))
             (text_ (this w))).
  - intros [Hn Hlong] ->. unfold no_break, substring0.
    destruct (Z.gtb_spec (Z.of_nat (length (text_ (this w)))) (maxDisplayLength (this w)));
      [|lia].
    rewrite bool_decide_false.
    + rewrite length_map, length_app, length_take. simpl. lia.
    + rewrite map_app. simpl. intros E. apply app_eq_nil in E as [_ E]. discriminate.
Qed.

Lemma updateTextNode_length_bound_witness :
  exists shown,
    (textContent <$> textElement_ (this (after updateTextNode_ (installed "hello world" 1%N))))
    = Some shown
    /\ Z.of_nat (length shown) <= Z.max 1 8 + 0
    /\ Z.of_nat (length shown) = 8 - 1.
Proof.
  destruct (updateTextNode_length_bound (installed "hello world" 1%N)
              {| te_node := 101%N; className := lit "blocklyText blocklyTextTruncated";
                 textContent := lit "hello" ++ [NBSP; ELLIPSIS] |} 1%N eq_refl eq_refl)
    as (shown & Hs & Hle & Heq).
  exists shown. split; [exact Hs|]. split; [exact Hle|].
  apply Heq; [vm_compute; split; [discriminate | reflexivity] | reflexivity].
Defined.

(** *** The width cache during rendering *)

Lemma measurements_app (l l' : list Call) :
  measurements (l ++ l') = (measurements l + measurements l')%nat.
Proof. unfold measurements. rewrite List.filter_app, length_app. reflexivity. Qed.

(** X16 (render_, cache hit and miss): rendering a visible initialised field
    measures the text exactly once when the cache has no nonzero entry for
    its key, and then stores the measured width under the key if caching
    is on; with such an entry it measures nothing and leaves the cache as
    it is.  The reference count is never touched. *)
Theorem render_measures_on_miss (h : Host) (w : World) (el : TextElement) (b : BlockId) :
  visible_ (this w) = true -> textElement_ (this w) = Some el ->
  sourceBlock_ (this w) = Some b ->
  let w' := after (render_ h) w in
  cacheReference_ w' = cacheReference_ w
  /\ (forall v, cache_lookup (cacheWidths_ w) (cache_key el) = Some v ->
        measurements (calls w') = measurements (calls w)
        /\ cacheWidths_ w' = cacheWidths_ w)
  /\ (cache_lookup (cacheWidths_ w) (cache_key el) = None ->
        measurements (calls w') = S (measurements (calls w))
        /\ cacheWidths_ w'
           = (insert (cache_key el) (measured_width h el) <$> cacheWidths_ w)).
Proof.
  intros Hv Hel Hb. cbv zeta.
  destruct w as [f bl cache r en nn cl].
  destruct f as [nm tx sb vis ats vd sz mx fg te mw bx ed cu cv pa]. simpl in *. subst.
  unfold render_, measured_width, textLength, cache_key.
  exec.
  destruct (cache_lookup cache _) as [cached|] eqn:Hlook; simpl;
    [|destruct (measure h _ _) as [m|]; simpl; destruct cache as [c|]; simpl];
    destruct ed, pa, bx, (RTL (bl b)), (isShadow (bl b));
    simpl; (split; [reflexivity|]); (split; [intros v [=] | intros [=]]);
    (split; [|reflexivity]);
    rewrite ?measurements_app; generalize (measurements cl); intros k;
    unfold measurements; simpl; lia.
Qed.

Lemma render_measures_on_miss_witness :
  let w := after (setVisible sample_host true >> startCache) (hidden "abc" 2%N) in
  let w1 := after (render_ sample_host) w in
  let w2 := after (render_ sample_host) w1 in
  measurements (calls w1) = S (measurements (calls w))
  /\ measurements (calls w2) = measurements (calls w1)
  /\ cacheWidths_ w2 = cacheWidths_ w1.
Proof.
  cbv zeta.
  set (w := after (setVisible sample_host true >> startCache) (hidden "abc" 2%N)).
  set (el := {| te_node := 101%N; className := lit "blocklyText";
                textContent := lit "abc" |}).
  destruct (render_measures_on_miss sample_host w el 2%N eq_refl eq_refl eq_refl)
    as (_ & _ & Hmiss).
  destruct (render_measures_on_miss sample_host (after (render_ sample_host) w) el 2%N
              eq_refl eq_refl eq_refl) as (_ & Hhit & _).
  split; [apply Hmiss; reflexivity|].
  apply (Hhit 21%Q). vm_compute. reflexivity.
Defined.

Lemma split_at_first (x : N) (l1 r1 l2 r2 : list N) :
  x ∉ l1 -> x ∉ l2 -> l1 ++ x :: r1 = l2 ++ x :: r2 -> l1 = l2 /\ r1 = r2.
Proof.
  revert l2. induction l1 as [|a l1 IH]; intros [|c l2] H1 H2 E; simpl in E.
  - injection E as ->. split; reflexivity.
  - injection E as <- _. exfalso. apply H2. left.
  - injection E as -> _. exfalso. apply H1. left.
  - injection E as -> E. destruct (IH l2) as [-> ->]; auto.
    + intros Hin. apply H1. right. exact Hin.
    + intros Hin. apply H2. right. exact Hin.
Qed.

Lemma cache_key_measured (h : Host) (el1 el2 : TextElement) :
  clean el1 -> clean el2 -> cache_key el1 = cache_key el2 ->
  measured_width h el1 = measured_width h el2.
Proof.
  intros H1 H2 E. destruct (split_at_first _ _ _ _ _ H1 H2 E) as [Ht Hc].
  unfold measured_width. rewrite Ht, Hc. reflexivity.
Qed.

Lemma text_width_sound (h : Host) (el : TextElement) (cache : option (gmap (list N) Q)) :
  clean el -> cache_sound h cache -> text_width h el cache = measured_width h el.
Proof.
  intros Hc Hs. unfold text_width, cache_lookup.
  destruct cache as [m|]; simpl; [|reflexivity].
  destruct (m !! cache_key el) as [v|] eqn:Hv; [|reflexivity].
  destruct (Qfalsy v) eqn:Hz; [reflexivity|].
  apply (Hs m el v eq_refl Hc Hv Hz).
Qed.

Lemma computed_width_sound (h : Host) (f : Field) (cache : option (gmap (list N) Q)) :
  (forall el, textElement_ f = Some el -> clean el) -> cache_sound h cache ->
  computed_width h f cache = computed_width h f None.
Proof.
  intros Hc Hs. apply computed_width_cache. intros el Hel.
  rewrite (text_width_sound h el cache (Hc el Hel) Hs). reflexivity.
Qed.

Lemma cache_sound_insert (h : Host) (el : TextElement) (cache : option (gmap (list N) Q)) :
  clean el -> cache_sound h cache ->
  cache_sound h (insert (cache_key el) (measured_width h el) <$> cache).
Proof.
  intros Hc Hs m el2 v Hm Hc2 Hv Hz. destruct cache as [c|]; [|discriminate].
  injection Hm as <-. destruct (decide (cache_key el = cache_key el2)) as [E|E].
  - rewrite E, lookup_insert_eq in Hv. injection Hv as <-.
    apply cache_key_measured; assumption.
  - rewrite lookup_insert_ne in Hv by exact E. apply (Hs c el2 v eq_refl Hc2 Hv Hz).
Qed.

(** With a sound cache a render gives the width of the field measured
    without cache, and leaves the cache sound. *)
Lemma render_sound (h : Host) (w : World) (el : TextElement) (b : BlockId) :
  visible_ (this w) = true -> textElement_ (this w) = Some el ->
  sourceBlock_ (this w) = Some b ->
  clean el -> cache_sound h (cacheWidths_ w) ->
  let w' := after (render_ h) w in
  completion (render_ h) w = Normal tt
  /\ width (size_ (this w')) = computed_width h (this w) None
  /\ cache_sound h (cacheWidths_ w').
Proof.
  intros Hv Hel Hb Hc Hs. cbv zeta.
  destruct (render_visible h w el b Hv Hel Hb) as (Hok & Hthis & _ & Hcache).
  split; [exact Hok|]. rewrite Hthis, Hcache. split.
  - simpl. apply computed_width_sound; [|exact Hs].
    intros el' Hel'. rewrite Hel in Hel'. injection Hel' as <-. exact Hc.
  - destruct (cache_lookup _ _); [exact Hs|]. apply cache_sound_insert; assumption.
Qed.

Lemma cache_sound_empty (h : Host) : cache_sound h (Some ∅).
Proof. intros m el v [= <-] _ Hv. rewrite lookup_empty in Hv. discriminate. Qed.

Lemma cache_sound_off (h : Host) : cache_sound h None.
Proof. intros m el v [=]. Qed.

(** X17 (width cache, transparency): as long as the cache only holds widths
    that the measurement gives for their keys, rendering a visible
    initialised field with the cache gives the same width as rendering it
    with caching off, and leaves the cache that way. *)
Theorem render_cache_transparent (h : Host) (w : World) (el : TextElement) (b : BlockId) :
  visible_ (this w) = true -> textElement_ (this w) = Some el ->
  sourceBlock_ (this w) = Some b ->
  clean el -> cache_sound h (cacheWidths_ w) ->
  let cached := after (render_ h) w in
  let uncached := after (render_ h) (with_cache None (cacheReference_ w) w) in
  completion (render_ h) w = Normal tt
  /\ width (size_ (this cached)) = width (size_ (this uncached))
  /\ cache_sound h (cacheWidths_ cached).
Proof.
  intros Hv Hel Hb Hc Hs. cbv zeta.
  destruct (render_sound h w el b Hv Hel Hb Hc Hs) as (Hok & Hw & Hs').
  destruct (render_sound h (with_cache None (cacheReference_ w) w) el b Hv Hel Hb Hc
              (cache_sound_off h)) as (_ & Hw0 & _).
  split; [exact Hok|]. split; [|exact Hs'].
  rewrite Hw, Hw0. reflexivity.
Qed.

Lemma render_cache_transparent_witness :
  let w := after (setVisible sample_host true >> startCache >> render_ sample_host)
                 (hidden "abc" 2%N) in
  is_Some (cacheWidths_ w ≫= (fun c => c !! (lit "abc" ++ 10%N :: lit "blocklyText")))
  /\ completion (render_ sample_host) w = Normal tt
  /\ width (size_ (this (after (render_ sample_host) w)))
     = width (size_ (this (after (render_ sample_host)
                                (with_cache None (cacheReference_ w) w))))
  /\ cache_sound sample_host (cacheWidths_ (after (render_ sample_host) w)).
Proof.
  cbv zeta. split; [eexists; vm_compute; reflexivity|].
  set (el := {| te_node := 101%N; className := lit "blocklyText";
                textContent := lit "abc" |}).
  assert (Hc : clean el).
  { unfold clean. simpl. rewrite !elem_of_cons, elem_of_nil.
    intros [H|[H|[H|[]]]]; discriminate H. }
  apply (render_cache_transparent sample_host _ el 2%N); try reflexivity; [exact Hc|].
  change (cache_sound sample_host
            (insert (cache_key el) (measured_width sample_host el) <$> Some ∅)).
  apply cache_sound_insert; [exact Hc | apply cache_sound_empty].
Defined.

(** On a visible initialised field whose stored width is stale or right,
    and with a sound cache, [getSize()] returns the width of the field as
    measured without cache. *)
Lemma getSize_sound (h : Host) (w : World) (el : TextElement) (b : BlockId) :
  visible_ (this w) = true -> textElement_ (this w) = Some el ->
  sourceBlock_ (this w) = Some b ->
  clean el -> cache_sound h (cacheWidths_ w) -> width_ok h w ->
  exists s, completion (getSize h) w = Normal s
            /\ width s = computed_width h (this w) None.
Proof.
  intros Hv Hel Hb Hc Hs Hok. unfold getSize. exec.
  destruct (Qfalsy (width (size_ (this w)))) eqn:Hz; simpl.
  - destruct (render_sound h w el b Hv Hel Hb Hc Hs) as (Hn & Hw & _).
    unfold completion, after in *.
    destruct (render_ h w) as [[[]|e] w']; simpl in *; [|discriminate].
    eexists. split; [reflexivity | exact Hw].
  - destruct Hok as [Hok|Hok]; [congruence|].
    eexists. split; [reflexivity | exact Hok].
Qed.

Lemma newline_not_shown (rtl : bool) (n : Z) (t : jsstring) :
  10%N ∉ display_text rtl n t.
Proof.
  intros Hin. pose proof (display_text_clean rtl n t) as Hall.
  rewrite Forall_forall in Hall. specialize (Hall _ Hin eq_refl). discriminate.
Qed.

(** X13 (setText then getSize): after a new text is set on a visible
    initialised field, the next [getSize()] returns the width of the new
    text as shown: its measured width (or the eight-pixel fallback) plus
    the paddings, whatever width was stored before. *)
Theorem setText_then_getSize (h : Host) (w : World) (x : JSValue)
    (el : TextElement) (b : BlockId) :
  x <> VNull -> ToString x <> text_ (this w) ->
  visible_ (this w) = true -> textElement_ (this w) = Some el ->
  sourceBlock_ (this w) = Some b -> cache_sound h (cacheWidths_ w) ->
  let w1 := after (setText x) w in
  let el' := {| te_node := te_node el;
                className := display_class (maxDisplayLength (this w)) (ToString x);
                textContent := display_text (RTL (blocks w b))
                                 (maxDisplayLength (this w)) (ToString x) |} in
  textElement_ (this w1) = Some el'
  /\ exists s, completion (setText x >> getSize h) w = Normal s
               /\ width s = computed_width h (this w1) None.
Proof.
  intros Hx Hne Hv Hel Hb Hs. cbv zeta.
  destruct (setText_run w x el b Hx Hne Hel Hb) as (Hok & Hthis & _ & Hbl & Hcache & _).
  split; [rewrite Hthis; reflexivity|].
  unfold completion at 1. rewrite (bind_normal _ _ w tt Hok).
  eapply (getSize_sound h _ _ b).
  - rewrite Hthis. exact Hv.
  - rewrite Hthis. reflexivity.
  - rewrite Hthis. exact Hb.
  - unfold clean. simpl. apply newline_not_shown.
  - rewrite Hcache. exact Hs.
  - left. rewrite Hthis. reflexivity.
Qed.

Lemma setText_then_getSize_witness :
  let w := installed "abc" 2%N in
  (textContent <$> textElement_ (this (after (setText (VNum 12)) w))) = Some (lit "12")
  /\ exists s, completion (setText (VNum 12) >> getSize sample_host) w = Normal s
               /\ width s = 20%Q.
Proof.
  cbv zeta.
  destruct (setText_then_getSize sample_host (installed "abc" 2%N) (VNum 12)
              {| te_node := 101%N; className := lit "blocklyText";
                 textContent := lit "abc" |} 2%N)
    as (Hel & s & Hs & Hw);
    [discriminate | vm_compute; discriminate | reflexivity | reflexivity
    | reflexivity | apply cache_sound_off |].
  split; [rewrite Hel; reflexivity|].
  exists s. split; [exact Hs | rewrite Hw; vm_compute; reflexivity].
Defined.

(** *** Initialising and disposing *)

Lemma fails_bind {A B} (m : M A) (k : A -> M B) (e : Error) (Q : World -> Prop) (w : World) :
  wp m (fun a w' => fails (k a) e Q w') w -> fails (bind m k) e Q w.
Proof. unfold wp, fails, bind. destruct (m w) as [[a|e'] w']; [auto | intros []]. Qed.

Lemma fails_sourceBlock {A} (p : Block -> A) (Q : World -> Prop) (w : World) :
  sourceBlock_ (this w) = None -> Q w -> fails (sourceBlock p) TypeError Q w.
Proof. intros Hb HQ. unfold fails, sourceBlock. rewrite Hb. auto. Qed.

Lemma fails_run {A} (m : M A) (e : Error) (Q : World -> Prop) (w : World) :
  fails m e Q w <-> completion m w = Throw e /\ Q (after m w).
Proof.
  unfold fails, completion, after. destruct (m w) as [[a|e'] w']; simpl; split.
  - intros [].
  - intros [[=] _].
  - intros [-> HQ]. auto.
  - intros [[= ->] HQ]. auto.
Qed.

Lemma wp_updateEditable_this (w : World) (b : BlockId) (g : Node) :
  sourceBlock_ (this w) = Some b -> fieldGroup_ (this w) = Some g ->
  wp updateEditable (fun _ w' => same_this w w') w.
Proof.
  intros Hb Hg. unfold updateEditable.
  apply wp_bind. unfold wp at 1, get. rewrite Hg.
  apply wp_bind. unfold wp at 1.
  destruct (EDITABLE (this w)); simpl; [|repeat split].
  apply wp_bind, (wp_sourceBlock _ _ _ b Hb).
  destruct (isEditable (blocks w b)).
  - do 2 (apply wp_bind; unfold wp at 1, call).
    apply wp_bind. unfold wp at 1. rewrite (getClickTarget_run _ b) by exact Hb.
    simpl. rewrite Hg.
    apply wp_bind. unfold wp at 1, get. simpl.
    destruct (_ <=? 1)%nat; unfold wp, call; simpl; repeat split.
  - do 2 (apply wp_bind; unfold wp at 1, call).
    apply wp_bind. unfold wp at 1. rewrite (getClickTarget_run _ b) by exact Hb.
    simpl. rewrite Hg.
    destruct (_ <=? 1)%nat; unfold wp, call; simpl; repeat split.
Qed.

Lemma wp_getSize_uninit (h : Host) (w : World) :
  textElement_ (this w) = None ->
  wp (getSize h)
     (fun _ w' => set_width 0 (this w') = set_width 0 (this w)
                  /\ blocks w' = blocks w /\ next_node w' = next_node w) w.
Proof.
  intros Hte. unfold getSize. apply wp_bind. unfold wp at 1, get.
  apply wp_bind. destruct (Qfalsy (width (size_ (this w)))); simpl.
  - unfold render_. exec. unfold wp, bind, get, assign, ret. simpl. rewrite Hte. simpl.
    destruct (box_ (this w)); simpl; repeat split.
  - unfold wp, ret, get. simpl. repeat split.
Qed.

#[local] Arguments lit : simpl never.

Lemma without_dom_width (f f' : Field) :
  set_width 0 f' = set_width 0 f -> without_dom f' = without_dom f.
Proof.
  intros H. change (without_dom (set_width 0 f') = without_dom (set_width 0 f)).
  rewrite H. reflexivity.
Qed.

(** [init] on a bound field that has not been initialised, in full. *)
Lemma wp_init_full (h : Host) (w : World) (b : BlockId) :
  fieldGroup_ (this w) = None -> textElement_ (this w) = None ->
  sourceBlock_ (this w) = Some b ->
  wp (init h)
     (fun _ w' =>
        fieldGroup_ (this w') = Some (next_node w)
        /\ textElement_ (this w') = Some (shown_element w b (N.succ (next_node w)))
        /\ mouseUpWrapper_ (this w')
           = Some {| bind_target := click_target w b (next_node w);
                     bind_name := "mouseup" |}
        /\ width (size_ (this w')) = 0%Q
        /\ without_dom (this w') = without_dom (this w)
        /\ blocks w' = blocks w
        /\ next_node w' = N.succ (N.succ (next_node w))) w.
Proof.
  intros Hg Hte Hb. unfold init.
  apply wp_bind. unfold wp at 1, get. rewrite Hg. simpl.
  apply wp_bind. unfold wp at 1, Blockly_createSvgElement.
  apply wp_bind. unfold wp at 1, assign.
  set (g := next_node w).
  set (w1 := with_this _ _).
  assert (H1 : this w1 = set_fieldGroup_ (Some g) (this w)) by reflexivity.
  assert (Hbl1 : blocks w1 = blocks w) by reflexivity.
  assert (Hn1 : next_node w1 = N.succ g) by reflexivity.
  clearbody w1.
  apply wp_bind. unfold wp at 1, get.
  apply wp_bind.
  apply (wp_mono _ (fun _ w' => same_this w1 w')).
  { destruct (visible_ (this w1)); unfold wp, when, ret, call; simpl; repeat split. }
  intros _ w2 (H2 & Hbl2 & Hn2).
  apply wp_bind.
  apply (wp_mono _ (fun _ w' => w' = w2)).
  { unfold wp, getArgTypes, bind, get, ret.
    destruct (argType_ (this w2)) as [[|]|]; reflexivity. }
  intros argTypes ? ->.
  assert (Hb2 : sourceBlock_ (this w2) = Some b) by (rewrite H2, H1; exact Hb).
  apply wp_bind.
  apply (wp_mono _ (fun _ w' => same_this w2 w')).
  { destruct argTypes as [a|]; [|repeat split].
    apply wp_bind, (wp_sourceBlock _ _ _ b Hb2).
    destruct (isShadow (blocks w2 b)).
    - apply wp_bind, (wp_sourceBlock _ _ _ b Hb2). unfold wp, call. simpl.
      repeat split.
    - unfold wp, call. simpl. repeat split. }
  intros _ w3 (H3 & Hbl3 & Hn3).
  apply wp_bind.
  eapply wp_mono.
  { apply (wp_getSize_uninit h w3). rewrite H3, H2, H1. exact Hte. }
  intros size w4 (H4 & Hbl4 & Hn4). simpl in H4.
  assert (Hcore : set_width 0 (this w4) = set_width 0 (set_fieldGroup_ (Some g) (this w))).
  { rewrite H4, H3, H2, H1. reflexivity. }
  assert (Hblk : blocks w4 = blocks w) by congruence.
  assert (Hnn : next_node w4 = N.succ g) by congruence.
  clear H4 H3 H2 H1 Hbl4 Hbl3 Hbl2 Hbl1 Hn4 Hn3 Hn2 Hn1 Hb2 w1 w2 w3.
  assert (Hb4 : sourceBlock_ (this w4) = Some b).
  { apply (f_equal sourceBlock_) in Hcore. exact (eq_trans Hcore Hb). }
  assert (Hg4 : fieldGroup_ (this w4) = Some g).
  { apply (f_equal fieldGroup_) in Hcore. exact Hcore. }
  apply wp_bind, (wp_sourceBlock _ _ _ b Hb4).
  apply wp_bind. unfold wp at 1, Blockly_createSvgElement.
  apply wp_bind. unfold wp at 1, assign.
  set (el := {| te_node := next_node w4; className := _; textContent := [] |}).
  set (w5 := with_this _ _).
  assert (H5 : this w5 = set_textElement_ (Some el) (this w4)) by reflexivity.
  assert (Hbl5 : blocks w5 = blocks w4) by reflexivity.
  assert (Hn5 : next_node w5 = N.succ (next_node w4)) by reflexivity.
  clearbody w5.
  apply wp_bind.
  eapply wp_mono;
    [apply (wp_updateEditable_this w5 b g); rewrite H5; simpl; assumption|].
  intros _ w6 (H6 & Hbl6 & Hn6).
  assert (Hb6 : sourceBlock_ (this w6) = Some b) by (rewrite H6, H5; exact Hb4).
  apply wp_bind, (wp_sourceBlock _ _ _ b Hb6).
  apply wp_bind. unfold wp at 1, call.
  apply wp_bind. unfold wp at 1.
  rewrite (getClickTarget_run _ b) by exact Hb6. simpl.
  rewrite H6, H5. simpl. rewrite Hg4.
  assert (Htg : (if (total_fields (blocks w6 b) <=? 1)%nat
                  then Some (getSvgRoot_block (blocks w6 b)) else Some g)
                 = Some (click_target w b g)).
  { unfold click_target. rewrite Hbl6, Hbl5, Hblk.
    destruct (total_fields (blocks w b) <=? 1)%nat; reflexivity. }
  rewrite Htg.
  apply wp_bind. apply wp_bind. unfold wp at 1, call. unfold wp at 1, assign.
  set (w7 := with_this _ _).
  assert (H7 : this w7 = set_mouseUpWrapper_
                           (Some {| bind_target := click_target w b g;
                                    bind_name := "mouseup" |}) (this w6)) by reflexivity.
  assert (Hbl7 : blocks w7 = blocks w6) by reflexivity.
  assert (Hn7 : next_node w7 = next_node w6) by reflexivity.
  clearbody w7.
  unfold wp. rewrite (updateTextNode_run w7 el b);
    [|rewrite H7, H6, H5; reflexivity | rewrite H7; exact Hb6].
  simpl. rewrite H7, H6, H5. simpl.
  assert (Htext : text_ (this w4) = text_ (this w)).
  { apply (f_equal text_) in Hcore. exact Hcore. }
  assert (Hmax : maxDisplayLength (this w4) = maxDisplayLength (this w)).
  { apply (f_equal maxDisplayLength) in Hcore. exact Hcore. }
  rewrite Hg4, Htext, Hmax, Hbl7, Hbl6, Hbl5, Hblk, Hn7, Hn6, Hn5, Hnn.
  unfold el. rewrite Hnn. repeat split.
  transitivity (without_dom (this w4)); [reflexivity|].
  rewrite (without_dom_width _ _ Hcore). reflexivity.
Qed.

(** [init] on a bound field that has not been initialised, as a run. *)
Lemma init_run (h : Host) (w : World) (b : BlockId) :
  fieldGroup_ (this w) = None -> textElement_ (this w) = None ->
  sourceBlock_ (this w) = Some b ->
  let w' := after (init h) w in
  completion (init h) w = Normal tt
  /\ fieldGroup_ (this w') = Some (next_node w)
  /\ textElement_ (this w') = Some (shown_element w b (N.succ (next_node w)))
  /\ mouseUpWrapper_ (this w')
     = Some {| bind_target := click_target w b (next_node w); bind_name := "mouseup" |}
  /\ width (size_ (this w')) = 0%Q
  /\ without_dom (this w') = without_dom (this w)
  /\ blocks w' = blocks w
  /\ next_node w' = N.succ (N.succ (next_node w)).
Proof.
  intros Hg Hte Hb. cbv zeta.
  destruct (proj1 (wp_run _ _ _) (wp_init_full h w b Hg Hte Hb)) as ([] & Hok & H).
  split; [exact Hok | exact H].
Qed.

Lemma wp_updateEditable_logs (w : World) (b : BlockId) (g : Node) :
  sourceBlock_ (this w) = Some b -> fieldGroup_ (this w) = Some g ->
  wp updateEditable (fun _ w' => logs (editable_calls w b g) w w') w.
Proof.
  intros Hb Hg. unfold updateEditable, editable_calls, click_target, logs.
  apply wp_bind. unfold wp at 1, get. rewrite Hg.
  apply wp_bind. unfold wp at 1.
  destruct (EDITABLE (this w)); simpl;
    [|unfold wp, ret; rewrite app_nil_r; repeat split].
  apply wp_bind, (wp_sourceBlock _ _ _ b Hb).
  destruct (isEditable (blocks w b)).
  - do 2 (apply wp_bind; unfold wp at 1, call).
    apply wp_bind. unfold wp at 1. rewrite (getClickTarget_run _ b) by exact Hb.
    simpl. rewrite Hg.
    apply wp_bind. unfold wp at 1, get. simpl.
    destruct (_ <=? 1)%nat; unfold wp, call; simpl; rewrite <- ?app_assoc;
      repeat split.
  - do 2 (apply wp_bind; unfold wp at 1, call).
    apply wp_bind. unfold wp at 1. rewrite (getClickTarget_run _ b) by exact Hb.
    simpl. rewrite Hg.
    destruct (_ <=? 1)%nat; unfold wp, call; simpl; rewrite <- ?app_assoc;
      repeat split.
Qed.

Lemma wp_getSize_uninit_logs (h : Host) (w : World) :
  textElement_ (this w) = None ->
  let stale := Qfalsy (width (size_ (this w))) in
  wp (getSize h)
     (fun s w' =>
        s = {| width := if stale then 0%Q else width (size_ (this w));
               height := height (size_ (this w)) |}
        /\ set_width 0 (this w') = set_width 0 (this w)
        /\ blocks w' = blocks w /\ next_node w' = next_node w
        /\ calls w'
           = calls w
             ++ match box_ (this w) with
                | Some box => if stale
                              then [setAttribute box "width" (ANum 0);
                                    setAttribute box "height"
                                      (ANum (height (size_ (this w))))]
                              else []
                | None => []
                end) w.
Proof.
  intros Hte. cbv zeta. unfold getSize. apply wp_bind. unfold wp at 1, get.
  apply wp_bind. destruct (Qfalsy (width (size_ (this w)))) eqn:Hs; simpl.
  - unfold render_. exec. unfold wp, bind, get, assign, ret. simpl. rewrite Hte. simpl.
    destruct (box_ (this w)); simpl; rewrite <- ?app_assoc, ?app_nil_r; repeat split.
  - unfold wp, ret, get. simpl.
    destruct (size_ (this w)); destruct (box_ (this w)); rewrite ?app_nil_r; repeat split.
Qed.

(** The log of [init] on a bound field that has not been initialised. *)
Lemma wp_init_log (h : Host) (w : World) (b : BlockId) :
  fieldGroup_ (this w) = None -> textElement_ (this w) = None ->
  sourceBlock_ (this w) = Some b ->
  wp (init h) (fun _ w' => calls w' = calls w ++ init_calls h w b) w.
Proof.
  intros Hg Hte Hb. unfold init, init_calls.
  apply wp_bind. unfold wp at 1, get. rewrite Hg. simpl.
  apply wp_bind. unfold wp at 1, Blockly_createSvgElement.
  apply wp_bind. unfold wp at 1, assign.
  set (g := next_node w).
  set (w1 := with_this _ _).
  assert (H1 : this w1 = set_fieldGroup_ (Some g) (this w)) by reflexivity.
  assert (Hbl1 : blocks w1 = blocks w) by reflexivity.
  assert (Hn1 : next_node w1 = N.succ g) by reflexivity.
  assert (Hc1 : calls w1 = calls w ++ [createSvgElement "g" [] None g]) by reflexivity.
  clearbody w1.
  apply wp_bind. unfold wp at 1, get.
  apply wp_bind.
  apply (wp_mono _ (fun _ w' =>
           logs (if visible_ (this w) then []
                 else [style_set g "display" (VStr (lit "none"))]) w1 w')).
  { rewrite H1. simpl. unfold logs.
    destruct (visible_ (this w)); unfold wp, when, ret, call; simpl;
      rewrite ?app_nil_r; repeat split. }
  intros _ w2 ((H2 & Hbl2 & Hn2) & Hc2).
  apply wp_bind.
  apply (wp_mono _ (fun r w' =>
           w' = w2
           /\ r = match argType_ (this w) with
                  | None | Some [] => None
                  | Some l => Some (join_space l)
                  end)).
  { unfold wp, getArgTypes, bind, get, ret. rewrite H2, H1. simpl.
    destruct (argType_ (this w)) as [[|]|]; split; reflexivity. }
  intros argTypes ? [-> Hr].
  assert (Hb2 : sourceBlock_ (this w2) = Some b) by (rewrite H2, H1; exact Hb).
  apply wp_bind.
  apply (wp_mono _ (fun _ w' =>
           logs (match argType_ (this w) with
                 | None | Some [] => []
                 | Some l => [setAttribute (if isShadow (blocks w b)
                                            then svgGroup_ (blocks w b) else g)
                                "data-argument-type" (AStr (join_space l))]
                 end) w2 w')).
  { unfold logs. rewrite <- Hbl1, <- Hbl2.
    destruct (argType_ (this w)) as [[|a0 l0]|]; subst argTypes;
      try (unfold wp, ret; simpl; rewrite app_nil_r; repeat split).
    apply wp_bind, (wp_sourceBlock _ _ _ b Hb2).
    destruct (isShadow (blocks w2 b)).
    - apply wp_bind, (wp_sourceBlock _ _ _ b Hb2). unfold wp, call. simpl.
      repeat split.
    - unfold wp, call. simpl. repeat split. }
  intros _ w3 ((H3 & Hbl3 & Hn3) & Hc3).
  apply wp_bind.
  eapply wp_mono.
  { apply (wp_getSize_uninit_logs h w3). rewrite H3, H2, H1. exact Hte. }
  cbv zeta. intros size w4 (Hsize & H4 & Hbl4 & Hn4 & Hc4).
  rewrite H3, H2, H1 in Hsize, Hc4. simpl in Hsize, Hc4, H4.
  assert (Hcore : set_width 0 (this w4) = set_width 0 (set_fieldGroup_ (Some g) (this w))).
  { rewrite H4, H3, H2, H1. reflexivity. }
  assert (Hblk : blocks w4 = blocks w) by congruence.
  assert (Hnn : next_node w4 = N.succ g) by congruence.
  rewrite Hc3, Hc2, Hc1 in Hc4.
  clear H4 H3 H2 H1 Hbl4 Hbl3 Hbl2 Hbl1 Hn4 Hn3 Hn2 Hn1 Hb2 Hc3 Hc2 Hc1 w1 w2 w3.
  assert (Hb4 : sourceBlock_ (this w4) = Some b).
  { apply (f_equal sourceBlock_) in Hcore. exact (eq_trans Hcore Hb). }
  assert (Hg4 : fieldGroup_ (this w4) = Some g).
  { apply (f_equal fieldGroup_) in Hcore. exact Hcore. }
  apply wp_bind, (wp_sourceBlock _ _ _ b Hb4).
  apply wp_bind. unfold wp at 1, Blockly_createSvgElement.
  apply wp_bind. unfold wp at 1, assign.
  set (el := {| te_node := next_node w4; className := _; textContent := [] |}).
  set (w5 := with_this _ _).
  assert (H5 : this w5 = set_textElement_ (Some el) (this w4)) by reflexivity.
  assert (Hbl5 : blocks w5 = blocks w4) by reflexivity.
  assert (Hn5 : next_node w5 = N.succ (next_node w4)) by reflexivity.
  assert (Hc5 : calls w5
                = calls w4
                  ++ [createSvgElement "text"
                        [("class", AStr (lit "blocklyText"));
                         ("x", ANum (if RTL (blocks w4 b) then - width size / 2
                                     else width size / 2)%Q);
                         ("y", ANum (height size / 2 + FIELD_TOP_PADDING h)%Q);
                         ("dominant-baseline", AStr (lit "middle"));
                         ("text-anchor", AStr (lit "middle"))]
                        (Some g) (next_node w4)]) by reflexivity.
  clearbody w5.
  apply wp_bind.
  eapply wp_mono;
    [apply (wp_updateEditable_logs w5 b g); rewrite H5; simpl; assumption|].
  intros _ w6 ((H6 & Hbl6 & Hn6) & Hc6).
  assert (Hb6 : sourceBlock_ (this w6) = Some b) by (rewrite H6, H5; exact Hb4).
  apply wp_bind, (wp_sourceBlock _ _ _ b Hb6).
  apply wp_bind. unfold wp at 1, call.
  apply wp_bind. unfold wp at 1.
  rewrite (getClickTarget_run _ b) by exact Hb6. simpl.
  rewrite H6, H5. simpl. rewrite Hg4.
  assert (Htg : (if (total_fields (blocks w6 b) <=? 1)%nat
                  then Some (getSvgRoot_block (blocks w6 b)) else Some g)
                 = Some (click_target w b g)).
  { unfold click_target. rewrite Hbl6, Hbl5, Hblk.
    destruct (total_fields (blocks w b) <=? 1)%nat; reflexivity. }
  rewrite Htg.
  apply wp_bind. apply wp_bind. unfold wp at 1, call. unfold wp at 1, assign.
  set (w7 := with_this _ _).
  assert (H7 : this w7 = set_mouseUpWrapper_
                           (Some {| bind_target := click_target w b g;
                                    bind_name := "mouseup" |}) (this w6)) by reflexivity.
  assert (Hbl7 : blocks w7 = blocks w6) by reflexivity.
  assert (Hc7 : calls w7
                = (calls w6 ++ [appendChild (getSvgRoot_block (blocks w6 b)) g])
                  ++ [bindEvent_ (click_target w b g) "mouseup"]) by reflexivity.
  clearbody w7.
  unfold wp. rewrite (updateTextNode_run w7 el b);
    [|rewrite H7, H6, H5; reflexivity | rewrite H7; exact Hb6].
  simpl. rewrite H7, H6, H5. simpl.
  assert (Htext : text_ (this w4) = text_ (this w)).
  { apply (f_equal text_) in Hcore. exact Hcore. }
  assert (Hmax : maxDisplayLength (this w4) = maxDisplayLength (this w)).
  { apply (f_equal maxDisplayLength) in Hcore. exact Hcore. }
  assert (Hed : editable_calls w5 b g = editable_calls w b g).
  { unfold editable_calls, click_target. rewrite H5, Hbl5, Hblk. simpl.
    apply (f_equal EDITABLE) in Hcore as He. apply (f_equal CURSOR) in Hcore as Hcu.
    simpl in He, Hcu. rewrite He, Hcu. reflexivity. }
  rewrite Hc7, Hc6, Hc5, Hc4, Hed, Htext, Hmax, Hbl7, Hbl6, Hbl5, Hblk, Hnn, Hsize.
  unfold el, display_class, display_text. simpl.
  rewrite <- !app_assoc. reflexivity.
Qed.

(** X2 (init, result): on a bound field without group and text element,
    [init] returns normally.  It creates two nodes, the group and the text
    element; the text element shows the stored text as [updateTextNode_]
    shows it; the binding of the listener is kept; the width is left stale
    (0); the name, text, visibility, argument types, validator, height and
    block of the field, and the blocks, are as before.  The calls it
    makes are exactly [init_calls], in this order: among them one
    [bindEvent_], of "mouseup" on the click target, after the group has
    been appended to the block root. *)
Theorem init_installs (h : Host) (w : World) (b : BlockId) :
  fieldGroup_ (this w) = None -> textElement_ (this w) = None ->
  sourceBlock_ (this w) = Some b ->
  let w' := after (init h) w in
  completion (init h) w = Normal tt
  /\ fieldGroup_ (this w') = Some (next_node w)
  /\ textElement_ (this w')
     = Some {| te_node := N.succ (next_node w);
               className := display_class (maxDisplayLength (this w)) (text_ (this w));
               textContent := display_text (RTL (blocks w b))
                                (maxDisplayLength (this w)) (text_ (this w)) |}
  /\ mouseUpWrapper_ (this w')
     = Some {| bind_target := if (total_fields (blocks w b) <=? 1)%nat
                              then getSvgRoot_block (blocks w b) else next_node w;
               bind_name := "mouseup" |}
  /\ width (size_ (this w')) = 0%Q
  /\ next_node w' = N.succ (N.succ (next_node w))
  /\ (name (this w'), text_ (this w'), visible_ (this w'), argType_ (this w'),
      validator_ (this w'), height (size_ (this w')), sourceBlock_ (this w'))
     = (name (this w), text_ (this w), visible_ (this w), argType_ (this w),
        validator_ (this w), height (size_ (this w)), sourceBlock_ (this w))
  /\ blocks w' = blocks w
  /\ calls w' = calls w ++ init_calls h w b.
Proof.
  intros Hg Hte Hb. cbv zeta.
  destruct (init_run h w b Hg Hte Hb) as (Hok & Hg' & Hel & Hm & Hz & Hcore & Hbl & Hn).
  destruct (proj1 (wp_run _ _ _) (wp_init_log h w b Hg Hte Hb)) as (_ & _ & Hlog).
  repeat split; try assumption.
  pose proof (f_equal name Hcore) as E1. pose proof (f_equal text_ Hcore) as E2.
  pose proof (f_equal visible_ Hcore) as E3. pose proof (f_equal argType_ Hcore) as E4.
  pose proof (f_equal validator_ Hcore) as E5.
  pose proof (f_equal (fun f => height (size_ f)) Hcore) as E6.
  pose proof (f_equal sourceBlock_ Hcore) as E7.
  simpl in E1, E2, E3, E4, E5, E6, E7. congruence.
Qed.

Lemma init_installs_witness :
  let w := after (setSourceBlock 2%N) (constructed "hello world") in
  let w' := after (init sample_host) w in
  completion (init sample_host) w = Normal tt
  /\ fieldGroup_ (this w') = Some 100%N
  /\ (textContent <$> textElement_ (this w')) = Some (lit "hello" ++ [NBSP; ELLIPSIS])
  /\ mouseUpWrapper_ (this w') = Some {| bind_target := 100%N; bind_name := "mouseup" |}
  /\ width (size_ (this w')) = 0%Q
  /\ calls w'
     = [createSvgElement "g" [] None 100%N;
        createSvgElement "text"
          [("class", AStr (lit "blocklyText"));
           ("x", ANum (48 / 2)%Q);
           ("y", ANum (32 / 2 + 2)%Q);
           ("dominant-baseline", AStr (lit "middle"));
           ("text-anchor", AStr (lit "middle"))]
          (Some 100%N) 101%N;
        addClass_ 100%N "blocklyEditableText";
        removeClass_ 100%N "blocklyNonEditableText";
        style_set 100%N "cursor" VUndefined;
        appendChild 1%N 100%N;
        bindEvent_ 100%N "mouseup";
        setAttribute 101%N "class" (AStr (lit "blocklyText blocklyTextTruncated"));
        removeChildren 101%N;
        appendTextNode 101%N (lit "hello" ++ [NBSP; ELLIPSIS])].
Proof.
  cbv zeta.
  destruct (init_installs sample_host (after (setSourceBlock 2%N) (constructed "hello world"))
              2%N eq_refl eq_refl eq_refl)
    as (Hok & Hg & Hel & Hm & Hz & _ & _ & _ & Hlog).
  rewrite Hel, Hlog. repeat split; assumption.
Defined.

Lemma init_again (h : Host) (w : World) :
  is_Some (fieldGroup_ (this w)) -> init h w = (Normal tt, w).
Proof. intros [g Hg]. unfold init, bind, get. rewrite Hg. reflexivity. Qed.

(** X3 (init, idempotence): initialising a bound field twice is the same
    as initialising it once: the second call creates no node, binds no
    second listener and writes nothing. *)
Theorem init_twice (h : Host) (w : World) (b : BlockId) :
  fieldGroup_ (this w) = None -> textElement_ (this w) = None ->
  sourceBlock_ (this w) = Some b ->
  (init h >> init h) w = init h w.
Proof.
  intros Hg Hte Hb.
  destruct (init_run h w b Hg Hte Hb) as (Hok & Hg' & _).
  rewrite (bind_normal _ _ w tt Hok).
  rewrite init_again by (rewrite Hg'; eauto).
  unfold completion, after in *. destruct (init h w) as [c w']. simpl in *.
  rewrite Hok. reflexivity.
Qed.

Lemma init_twice_witness :
  (init sample_host >> init sample_host)
    (after (setSourceBlock 2%N) (constructed "abc"))
  = init sample_host (after (setSourceBlock 2%N) (constructed "abc")).
Proof.
  apply (init_twice sample_host (after (setSourceBlock 2%N) (constructed "abc")) 2%N);
    reflexivity.
Defined.

Lemma fails_init_unbound (h : Host) (w : World) :
  fieldGroup_ (this w) = None -> textElement_ (this w) = None ->
  sourceBlock_ (this w) = None ->
  fails (init h) TypeError
        (fun w' => fieldGroup_ (this w') = Some (next_node w)
                   /\ textElement_ (this w') = None
                   /\ sourceBlock_ (this w') = None) w.
Proof.
  intros Hg Hte Hb. unfold init.
  apply fails_bind. unfold wp at 1, get. rewrite Hg. simpl.
  apply fails_bind. unfold wp at 1, Blockly_createSvgElement.
  apply fails_bind. unfold wp at 1, assign.
  set (g := next_node w).
  set (w1 := with_this _ _).
  assert (H1 : this w1 = set_fieldGroup_ (Some g) (this w)) by reflexivity.
  clearbody w1.
  apply fails_bind. unfold wp at 1, get.
  apply fails_bind.
  apply (wp_mono _ (fun _ w' => same_this w1 w')).
  { destruct (visible_ (this w1)); unfold wp, when, ret, call; simpl; repeat split. }
  intros _ w2 (H2 & _ & _).
  apply fails_bind.
  apply (wp_mono _ (fun _ w' => w' = w2)).
  { unfold wp, getArgTypes, bind, get, ret.
    destruct (argType_ (this w2)) as [[|]|]; reflexivity. }
  intros argTypes ? ->.
  assert (Hb2 : sourceBlock_ (this w2) = None) by (rewrite H2, H1; exact Hb).
  assert (Hfinal : forall w', this w' = this w2 ->
                     fieldGroup_ (this w') = Some g
                     /\ textElement_ (this w') = None /\ sourceBlock_ (this w') = None).
  { intros w' ->. rewrite H2, H1. simpl. auto. }
  destruct argTypes as [a|].
  - unfold fails, bind, sourceBlock. rewrite Hb2. split; [reflexivity|].
    apply Hfinal. reflexivity.
  - apply fails_bind. unfold wp at 1, ret.
    apply fails_bind. eapply wp_mono.
    { apply (wp_getSize_uninit h w2). rewrite H2, H1. exact Hte. }
    intros size w4 (H4 & _ & _). simpl in H4.
    assert (Hb4 : sourceBlock_ (this w4) = None).
    { apply (f_equal sourceBlock_) in H4. simpl in H4. congruence. }
    unfold fails, bind, sourceBlock. rewrite Hb4. split; [reflexivity|].
    pose proof (f_equal fieldGroup_ H4) as E1. pose proof (f_equal textElement_ H4) as E2.
    simpl in E1, E2. rewrite E1, E2, H2, H1. simpl. auto.
Qed.

Lemma setSourceBlock_run_unbound (w : World) (b : BlockId) :
  sourceBlock_ (this w) = None ->
  completion (setSourceBlock b) w = Normal tt
  /\ after (setSourceBlock b) w = with_this (set_sourceBlock_ (Some b)) w.
Proof.
  intros Hb. unfold completion, after, setSourceBlock, bind, get. rewrite Hb.
  split; reflexivity.
Qed.

(** X4 (init before binding): [init] on a field that is not bound to a
    block throws a [TypeError], but only after it has created and stored
    the group.  The field is then taken for initialised: once it is bound,
    [init] returns at once, and the field never gets its text element. *)
Theorem init_before_binding (h : Host) (w : World) (b : BlockId) :
  fieldGroup_ (this w) = None -> textElement_ (this w) = None ->
  sourceBlock_ (this w) = None ->
  let w1 := after (init h) w in
  let w2 := after (setSourceBlock b >> init h) w1 in
  completion (init h) w = Throw TypeError
  /\ fieldGroup_ (this w1) = Some (next_node w)
  /\ completion (setSourceBlock b >> init h) w1 = Normal tt
  /\ sourceBlock_ (this w2) = Some b
  /\ textElement_ (this w2) = None
  /\ calls w2 = calls w1.
Proof.
  intros Hg Hte Hb. cbv zeta.
  destruct (proj1 (fails_run _ _ _ _) (fails_init_unbound h w Hg Hte Hb))
    as (Hthrow & Hg1 & Hte1 & Hb1).
  split; [exact Hthrow|]. split; [exact Hg1|].
  set (w1 := after (init h) w) in *.
  destruct (setSourceBlock_run_unbound w1 b Hb1) as [Hok Hw].
  unfold completion at 1, after at 1 2 3.
  rewrite (bind_normal _ _ w1 tt Hok), Hw.
  rewrite init_again by (simpl; rewrite Hg1; eauto).
  simpl. repeat split; assumption.
Qed.

Lemma init_before_binding_witness :
  let w1 := after (init sample_host) (constructed "abc") in
  let w2 := after (setSourceBlock 2%N >> init sample_host) w1 in
  completion (init sample_host) (constructed "abc") = Throw TypeError
  /\ fieldGroup_ (this w1) = Some 100%N
  /\ completion (setSourceBlock 2%N >> init sample_host) w1 = Normal tt
  /\ sourceBlock_ (this w2) = Some 2%N
  /\ textElement_ (this w2) = None
  /\ calls w2 = calls w1.
Proof.
  exact (init_before_binding sample_host (constructed "abc") 2%N eq_refl eq_refl eq_refl).
Defined.

(** [dispose], whatever the field. *)
Lemma dispose_run (w : World) :
  let w' := after dispose w in
  completion dispose w = Normal tt
  /\ fieldGroup_ (this w') = None /\ textElement_ (this w') = None
  /\ mouseUpWrapper_ (this w') = None /\ sourceBlock_ (this w') = None
  /\ validator_ (this w') = None
  /\ text_ (this w') = text_ (this w)
  /\ maxDisplayLength (this w') = maxDisplayLength (this w)
  /\ visible_ (this w') = visible_ (this w)
  /\ blocks w' = blocks w
  /\ calls w' = calls w
                ++ match mouseUpWrapper_ (this w) with
                   | Some binding => [unbindEvent_ binding]
                   | None => []
                   end
                ++ [removeNode (fieldGroup_ (this w))].
Proof.
  cbv zeta. unfold dispose. exec.
  destruct (mouseUpWrapper_ (this w)) eqn:Hm; simpl; rewrite <- ?app_assoc;
    repeat split; exact Hm.
Qed.

(** X5 (init then dispose): disposing an initialised field unbinds the very
    listener that [init] bound and asks for the removal of the very group
    that [init] created, in this order and nothing else; afterwards the
    field holds no node, no binding, no block and no validator. *)
Theorem init_then_dispose (h : Host) (w : World) (b : BlockId) :
  fieldGroup_ (this w) = None -> textElement_ (this w) = None ->
  sourceBlock_ (this w) = Some b ->
  let w1 := after (init h) w in
  let w2 := after (init h >> dispose) w in
  completion (init h >> dispose) w = Normal tt
  /\ calls w2
     = calls w1
       ++ [unbindEvent_ {| bind_target := click_target w b (next_node w);
                           bind_name := "mouseup" |};
           removeNode (Some (next_node w))]
  /\ fieldGroup_ (this w2) = None /\ textElement_ (this w2) = None
  /\ mouseUpWrapper_ (this w2) = None /\ sourceBlock_ (this w2) = None
  /\ validator_ (this w2) = None.
Proof.
  intros Hg Hte Hb. cbv zeta.
  destruct (init_run h w b Hg Hte Hb) as (Hok & Hg' & _ & Hm & _).
  unfold completion at 1, after at 1 3 4 5 6 7.
  rewrite (bind_normal _ _ w tt Hok).
  destruct (dispose_run (after (init h) w))
    as (Hok' & H1 & H2 & H3 & H4 & H5 & _ & _ & _ & _ & Hc).
  rewrite Hm, Hg' in Hc. unfold completion, after in *.
  repeat split; assumption.
Qed.

Lemma init_then_dispose_witness :
  let w := after (setSourceBlock 2%N) (constructed "abc") in
  completion (init sample_host >> dispose) w = Normal tt
  /\ calls (after (init sample_host >> dispose) w)
     = calls (after (init sample_host) w)
       ++ [unbindEvent_ {| bind_target := 100%N; bind_name := "mouseup" |};
           removeNode (Some 100%N)].
Proof.
  cbv zeta.
  destruct (init_then_dispose sample_host (after (setSourceBlock 2%N) (constructed "abc"))
              2%N eq_refl eq_refl eq_refl) as (Hok & Hc & _).
  split; [exact Hok | exact Hc].
Defined.

(** X6 (dispose twice): [dispose] never throws; a second [dispose] finds
    nothing left to unbind, asks for the removal of null (which the DOM
    helper ignores) and leaves the field as the first one left it. *)
Theorem dispose_twice (w : World) :
  let w1 := after dispose w in
  let w2 := after (dispose >> dispose) w in
  completion (dispose >> dispose) w = Normal tt
  /\ calls w2 = calls w1 ++ [removeNode None]
  /\ this w2 = this w1.
Proof.
  cbv zeta.
  destruct (dispose_run w) as (Hok & Hg & Hte & Hm & Hb & Hv & _).
  unfold completion at 1, after at 1 3.
  rewrite (bind_normal _ _ w tt Hok).
  set (w1 := after dispose w) in *.
  unfold dispose. exec. rewrite Hm. simpl. rewrite Hg. simpl.
  repeat split.
  destruct (this w1) as [nm tx sb vis ats vd sz mx fg te mw bx ed cu cv pa].
  simpl in *. subst. reflexivity.
Qed.

(** X7 (dispose, bind, init): a disposed field can be used again.  Whatever
    the field was, disposing it, binding it to a block [b] and
    initialising it returns normally and gives an initialised field on
    [b] that shows the text the field had, with width 0 and without
    validator. *)
Theorem dispose_then_init_again (h : Host) (w : World) (b : BlockId) :
  let w' := after (dispose >> setSourceBlock b >> init h) w in
  completion (dispose >> setSourceBlock b >> init h) w = Normal tt
  /\ ready w'
  /\ width (size_ (this w')) = 0%Q
  /\ sourceBlock_ (this w') = Some b
  /\ text_ (this w') = text_ (this w)
  /\ (textContent <$> textElement_ (this w'))
     = Some (display_text (RTL (blocks w b)) (maxDisplayLength (this w)) (text_ (this w)))
  /\ validator_ (this w') = None.
Proof.
  cbv zeta.
  destruct (dispose_run w) as (Hok & Hg & Hte & _ & Hb & Hv & Ht & Hmx & _ & Hbl & _).
  unfold completion at 1, after at 1 2 3 4 5 6.
  rewrite (bind_normal _ _ w tt Hok).
  set (w1 := after dispose w) in *.
  destruct (setSourceBlock_run_unbound w1 b Hb) as [Hok1 Hw1].
  rewrite (bind_normal _ _ w1 tt Hok1), Hw1.
  set (w2 := with_this _ w1).
  destruct (init_run h w2 b Hg Hte eq_refl)
    as (Hok2 & Hg2 & Hel2 & _ & Hz & Hcore & _).
  unfold completion, after in *.
  destruct (init h w2) as [c w3]. simpl in *. subst c.
  split; [reflexivity|].
  pose proof (f_equal sourceBlock_ Hcore) as Es.
  pose proof (f_equal text_ Hcore) as Et.
  pose proof (f_equal validator_ Hcore) as Ev. simpl in Es, Et, Ev.
  unfold ready, initialized, hidden_flat.
  rewrite Hg2, Hel2, Es, Et, Ev. unfold shown_element. subst w2. simpl.
  rewrite ?Ht, ?Hmx, ?Hbl, ?Hv. repeat split; eauto.
Qed.

(** *** Value changes that change nothing *)

(** X19 (setValue, event without change): when the new value is not loosely
    equal to the text but its string is the text (undefined on
    "undefined", true on "true"), [setValue] on a bound field with the gate
    open fires a change event and does nothing else: no text change, no
    write to the text node, no render. *)
Theorem setValue_event_without_change (w : World) (x : JSValue) (b : BlockId) :
  x <> VNull -> loose_eq (VStr (text_ (this w))) x = false ->
  ToString x = text_ (this w) ->
  sourceBlock_ (this w) = Some b -> Events_isEnabled w = true ->
  setValue x w
  = (Normal tt, with_calls (fun l => l ++ [Events_fire (change_event w b x)]) w).
Proof.
  intros Hx Hne Hs Hb Hen. rewrite (setValue_steps w x Hx Hne).
  unfold announced. rewrite Hb, Hen. unfold setText.
  assert (is_null x = false) as -> by (destruct x; try reflexivity; congruence).
  unfold bind, get. simpl. rewrite bool_decide_true by exact Hs. reflexivity.
Qed.

Lemma setValue_event_without_change_witness :
  setValue (VBool true) (installed "true" 2%N)
  = (Normal tt,
     with_calls (fun l => l ++ [Events_fire {| ev_block := 2%N; ev_element := "field";
                                                ev_name := None;
                                                ev_oldValue := VStr (lit "true");
                                                ev_newValue := VBool true |}])
       (installed "true" 2%N)).
Proof.
  apply (setValue_event_without_change (installed "true" 2%N) (VBool true) 2%N);
    [discriminate | reflexivity | reflexivity | reflexivity | reflexivity].
Defined.

Lemma setValue_again (w : World) (y : JSValue) :
  loose_eq (VStr (ToString y)) y = true ->
  setValue y (after (setValue y) w) = (Normal tt, after (setValue y) w).
Proof.
  intros Hself. destruct (decide (y = VNull)) as [->|Hy]; [reflexivity|].
  assert (Hnull : is_null y = false) by (destruct y; try reflexivity; congruence).
  destruct (loose_eq (VStr (text_ (this w))) y) eqn:Hold.
  - assert (Hnop : setValue y w = (Normal tt, w)).
    { unfold setValue. rewrite Hnull. unfold bind, getValue, getText, get.
      simpl. rewrite Hold. reflexivity. }
    unfold after. rewrite Hnop. simpl. exact Hnop.
  - destruct (setText_effect (announced w y) y) as (Ht & _ & _). specialize (Ht Hy).
    unfold after in *. rewrite (setValue_steps w y Hy Hold).
    unfold setValue. rewrite Hnull. unfold bind, getValue, getText, get. simpl.
    rewrite Ht, Hself. reflexivity.
Qed.

(** X20 (setValue, idempotence): for a value that is loosely equal to its
    own string, as every string is, a second [setValue] with it is a
    strict no-op: no second event, no write, no render. *)
Theorem setValue_twice (w : World) (x : JSValue) :
  loose_eq (VStr (ToString x)) x = true ->
  (forall s, setValue (VStr s) (after (setValue (VStr s)) w)
             = (Normal tt, after (setValue (VStr s)) w))
  /\ setValue x (after (setValue x) w) = (Normal tt, after (setValue x) w).
Proof.
  intros Hself. split; [|exact (setValue_again w x Hself)].
  intros s. apply setValue_again. unfold loose_eq. simpl.
  apply bool_decide_true. reflexivity.
Qed.

Lemma setValue_twice_witness :
  (forall s, setValue (VStr s) (after (setValue (VStr s)) (installed "abc" 2%N))
             = (Normal tt, after (setValue (VStr s)) (installed "abc" 2%N)))
  /\ setValue (VNum 42) (after (setValue (VNum 42)) (installed "abc" 2%N))
     = (Normal tt, after (setValue (VNum 42)) (installed "abc" 2%N)).
Proof.
  apply (setValue_twice (installed "abc" 2%N) (VNum 42)). reflexivity.
Defined.

(** *** Editable styling *)

(** X8 (updateEditable): on an initialised field of an editable class,
    [updateEditable] gives the group exactly one of the two classes (the
    editable one on an editable block, else the other), removes the other,
    and sets the cursor on the click target (the class cursor, or none);
    the field itself is not changed.  A field of a class that is not
    editable, or without group, is left alone, bound or not. *)
Theorem updateEditable_marks_group (w : World) :
  let w' := after updateEditable w in
  (EDITABLE (this w) = false \/ fieldGroup_ (this w) = None ->
     updateEditable w = (Normal tt, w))
  /\ (forall b g, EDITABLE (this w) = true -> fieldGroup_ (this w) = Some g ->
        sourceBlock_ (this w) = Some b ->
        completion updateEditable w = Normal tt
        /\ this w' = this w
        /\ calls w'
           = calls w
             ++ (if isEditable (blocks w b)
                 then [addClass_ g "blocklyEditableText";
                       removeClass_ g "blocklyNonEditableText";
                       style_set (click_target w b g) "cursor" (CURSOR (this w))]
                 else [addClass_ g "blocklyNonEditableText";
                       removeClass_ g "blocklyEditableText";
                       style_set (click_target w b g) "cursor" (VStr [])])).
Proof.
  cbv zeta. split.
  - intros H. unfold updateEditable, bind, get.
    destruct (fieldGroup_ (this w)) as [g|]; [|reflexivity].
    destruct H as [->|H]; [reflexivity | discriminate].
  - intros b g He Hg Hb. unfold updateEditable, click_target. exec.
    rewrite Hg, He. simpl. rewrite Hb. simpl.
    destruct (isEditable (blocks w b)); simpl;
      rewrite (getClickTarget_run _ b) by exact Hb; simpl; rewrite Hg;
      destruct (_ <=? 1)%nat; simpl; rewrite <- ?app_assoc; repeat split.
Qed.

Lemma updateEditable_marks_group_witness :
  updateEditable (constructed "abc") = (Normal tt, constructed "abc")
  /\ calls (after updateEditable (installed "abc" 2%N))
     = calls (installed "abc" 2%N)
       ++ [addClass_ 100%N "blocklyEditableText";
           removeClass_ 100%N "blocklyNonEditableText";
           style_set 100%N "cursor" VUndefined].
Proof.
  destruct (updateEditable_marks_group (constructed "abc")) as [H1 _].
  destruct (updateEditable_marks_group (installed "abc" 2%N)) as [_ H2].
  split; [apply H1; right; reflexivity|].
  exact (proj2 (proj2 (H2 2%N 100%N eq_refl eq_refl eq_refl))).
Defined.

(** *** The pointer handler *)

(** X22 (onMouseUp_): the stray event of old iOS (both layer coordinates
    not 0) and a right click are dropped before the block is looked at, so
    even on an unbound field.  Any other event on a bound field opens the
    editor exactly when the workspace is not dragging and the block is
    editable, and does nothing otherwise; on an unbound field it throws. *)
Theorem onMouseUp_opens_editor (ua : UserAgent) (isDragging : BlockId -> bool)
    (showEditor_ : M unit) (e : MouseEvent) (w : World) :
  (dropped ua e = true ->
     onMouseUp_ ua isDragging showEditor_ e w = (Normal tt, w))
  /\ (forall b, dropped ua e = false -> sourceBlock_ (this w) = Some b ->
        onMouseUp_ ua isDragging showEditor_ e w
        = if negb (isDragging b) && isEditable (blocks w b)
          then showEditor_ w else (Normal tt, w))
  /\ (dropped ua e = false -> sourceBlock_ (this w) = None ->
        onMouseUp_ ua isDragging showEditor_ e w = (Throw TypeError, w)).
Proof.
  unfold onMouseUp_, dropped.
  destruct ((IPHONE ua || IPAD ua) && negb (isVersionOrHigher ua "537.51.2")
            && not_zero (layerX e) && not_zero (layerY e)); simpl.
  - repeat split; try discriminate.
  - destruct (isRightButton e); simpl; [repeat split; discriminate|].
    split; [discriminate|]. split.
    + intros b _ Hb. unfold bind, get, sourceBlock, ret. rewrite Hb.
      destruct (isDragging b); simpl; [reflexivity|]. rewrite Hb.
      destruct (isEditable (blocks w b)); reflexivity.
    + intros _ Hb. unfold bind, get, throw. rewrite Hb. reflexivity.
Qed.

Lemma onMouseUp_opens_editor_witness :
  let stray := {| layerX := VNum 3; layerY := VNum 4; isRightButton := false |} in
  let click := {| layerX := VNum 0; layerY := VNum 4; isRightButton := false |} in
  onMouseUp_ old_iPad (fun _ => false) sample_editor stray (installed "abc" 2%N)
  = (Normal tt, installed "abc" 2%N)
  /\ onMouseUp_ old_iPad (fun _ => false) sample_editor click (installed "abc" 2%N)
     = sample_editor (installed "abc" 2%N)
  /\ onMouseUp_ desktop (fun _ => false) sample_editor click (constructed "abc")
     = (Throw TypeError, constructed "abc").
Proof.
  cbv zeta. split; [|split].
  - apply (proj1 (onMouseUp_opens_editor old_iPad (fun _ => false) sample_editor
                    {| layerX := VNum 3; layerY := VNum 4; isRightButton := false |}
                    (installed "abc" 2%N))). reflexivity.
  - apply (proj1 (proj2 (onMouseUp_opens_editor old_iPad (fun _ => false) sample_editor
                    {| layerX := VNum 0; layerY := VNum 4; isRightButton := false |}
                    (installed "abc" 2%N))) 2%N); reflexivity.
  - apply (proj2 (proj2 (onMouseUp_opens_editor desktop (fun _ => false) sample_editor
                    {| layerX := VNum 0; layerY := VNum 4; isRightButton := false |}
                    (constructed "abc")))); reflexivity.
Defined.

(** *** Argument types *)

Lemma addArgType_run (a : jsstring) (w : World) :
  addArgType a w
  = (Normal tt,
     with_this (set_argType_
                  (Some (match argType_ (this w) with Some old => old | None => [] end
                         ++ [a]))) w).
Proof. reflexivity. Qed.

Lemma addArgTypes_run (l : list jsstring) (w : World) :
  l <> [] ->
  completion (addArgTypes l) w = Normal tt
  /\ argType_ (this (after (addArgTypes l) w))
     = Some (match argType_ (this w) with Some old => old | None => [] end ++ l).
Proof.
  revert w. induction l as [|a r IH]; intros w Hl; [congruence|].
  unfold completion, after. simpl. unfold bind. rewrite addArgType_run.
  destruct r as [|a' r'].
  - simpl. split; reflexivity.
  - set (w1 := with_this _ w).
    destruct (IH w1 ltac:(discriminate)) as [Hok Harg].
    unfold completion, after in *. split; [exact Hok|].
    rewrite Harg. simpl. rewrite <- app_assoc. reflexivity.
Qed.

Lemma join_space_length (l : list jsstring) :
  l <> [] ->
  length (join_space l)
  = (list_sum (map (fun s => length s) l) + (length l - 1))%nat.
Proof.
  induction l as [|a r IH]; intros Hl; [congruence|].
  destruct r as [|a' r']; [simpl; lia|].
  change (join_space (a :: a' :: r')) with (a ++ 32%N :: join_space (a' :: r')).
  rewrite length_app.
  change (length (32%N :: join_space (a' :: r')))
    with (S (length (join_space (a' :: r')))).
  rewrite IH by discriminate. simpl. lia.
Qed.

(** X9 (argument types): on a field without argument types [getArgTypes]
    returns null; after one or more [addArgType] calls it returns the
    added types in the order of the calls, one space between two of them
    (so as many code units as the types have, plus one less than their
    number), and never null. *)
Theorem getArgTypes_after_adding (w : World) (l : list jsstring) :
  argType_ (this w) = None ->
  completion getArgTypes w = Normal None
  /\ (l <> [] ->
      completion (addArgTypes l >> getArgTypes) w = Normal (Some (join_space l))
      /\ length (join_space l)
         = (list_sum (map (fun s => length s) l) + (length l - 1))%nat).
Proof.
  intros Hnone. split.
  - unfold completion, getArgTypes, bind, get. rewrite Hnone. reflexivity.
  - intros Hl. split; [|apply join_space_length; exact Hl].
    destruct (addArgTypes_run l w Hl) as [Hok Harg]. rewrite Hnone in Harg.
    unfold completion at 1. rewrite (bind_normal _ _ w tt Hok).
    unfold getArgTypes, bind, get. rewrite Harg. simpl.
    destruct l; [congruence | reflexivity].
Qed.

Lemma getArgTypes_after_adding_witness :
  completion getArgTypes (constructed "abc") = Normal None
  /\ completion (addArgTypes [lit "text"; lit "round"] >> getArgTypes) (constructed "abc")
     = Normal (Some (lit "text round")).
Proof.
  destruct (getArgTypes_after_adding (constructed "abc") [lit "text"; lit "round"] eq_refl)
    as [H0 H1].
  split; [exact H0|]. apply H1. discriminate.
Defined.

(** *** Balanced cache calls *)

Lemma cache_calls_cons (c : CacheCall) (r : list CacheCall) (w : World) :
  after (cache_calls (c :: r)) w = after (cache_calls r) (after (cache_call c) w).
Proof. destruct c; reflexivity. Qed.

Lemma cache_calls_balanced_from (c0 : option (gmap (list N) Q)) (r0 : Z)
    (l : list CacheCall) (w : World) :
  0 <= r0 -> (is_Some c0 <-> 0 < r0) ->
  r0 <= cacheReference_ w ->
  cacheWidths_ w = (if cacheReference_ w =? r0 then c0
                    else if 0 <? r0 then c0 else Some ∅) ->
  nested (cacheReference_ w - r0) l = true ->
  let w' := after (cache_calls l) w in
  cacheReference_ w' = cacheReference_ w + net_depth l
  /\ cacheWidths_ w' = (if cacheReference_ w' =? r0 then c0
                        else if 0 <? r0 then c0 else Some ∅).
Proof.
  intros Hr0 Hc0. revert w. induction l as [|c r IH]; intros w Hge Hcache Hn; cbv zeta.
  - unfold after. simpl. split; [lia | exact Hcache].
  - destruct c; simpl in Hn.
    + destruct (IH (after startCache w)) as [Hr Hc].
      * unfold after, startCache. simpl. lia.
      * unfold after, startCache. simpl. rewrite Hcache.
        destruct (Z.eqb_spec (cacheReference_ w) r0) as [E|E];
          destruct (Z.eqb_spec (cacheReference_ w + 1) r0) as [E'|E']; try lia.
        -- destruct (Z.ltb_spec 0 r0) as [Hp|Hp].
           ++ destruct (proj2 Hc0 Hp) as [m ->]. reflexivity.
           ++ destruct c0 as [m|]; [|reflexivity].
              exfalso. assert (0 < r0) by (apply Hc0; eauto). lia.
        -- destruct (Z.ltb_spec 0 r0) as [Hp|Hp]; [|reflexivity].
           destruct (proj2 Hc0 Hp) as [m ->]. reflexivity.
      * replace (cacheReference_ (after startCache w) - r0)
          with (cacheReference_ w - r0 + 1) by (unfold after, startCache; simpl; lia).
        exact Hn.
      * rewrite cache_calls_cons. simpl cache_call. split; [|exact Hc].
        rewrite Hr. unfold after, startCache. simpl. lia.
    + apply andb_true_iff in Hn as [Hpos Hn]. apply Z.ltb_lt in Hpos.
      destruct (IH (after stopCache w)) as [Hr Hc].
      * unfold after, stopCache. simpl. lia.
      * unfold after, stopCache. simpl. rewrite Hcache.
        destruct (Z.eqb_spec (cacheReference_ w) r0) as [E|E]; [lia|].
        destruct (Z.eqb_spec (cacheReference_ w - 1) 0) as [Z0|Z0];
          destruct (Z.eqb_spec (cacheReference_ w - 1) r0) as [E'|E']; try lia.
        -- destruct c0 as [m|]; [|reflexivity].
           exfalso. assert (0 < r0) by (apply Hc0; eauto). lia.
        -- destruct (Z.ltb_spec 0 r0) as [Hp|Hp]; [|lia].
           reflexivity.
        -- reflexivity.
      * replace (cacheReference_ (after stopCache w) - r0)
          with (cacheReference_ w - r0 - 1) by (unfold after, stopCache; simpl; lia).
        exact Hn.
      * rewrite cache_calls_cons. simpl cache_call. split; [|exact Hc].
        rewrite Hr. unfold after, stopCache. simpl. lia.
Qed.

(** X18 (cache, balanced calls): a strictly nested sequence of starts and
    stops with as many stops as starts leaves the reference count and the
    cache as they were: an enclosing pass keeps its entries across an inner
    pass, and the outermost stop frees the cache. *)
Theorem cache_calls_balanced (w : World) (l : list CacheCall) :
  cache_counted w -> nested 0 l = true -> net_depth l = 0 ->
  cacheReference_ (after (cache_calls l) w) = cacheReference_ w
  /\ cacheWidths_ (after (cache_calls l) w) = cacheWidths_ w.
Proof.
  intros [Hr Hc] Hn Hd.
  destruct (cache_calls_balanced_from (cacheWidths_ w) (cacheReference_ w) l w)
    as [Hr' Hc']; try assumption; try lia.
  - rewrite Z.eqb_refl. reflexivity.
  - rewrite Z.sub_diag. exact Hn.
  - rewrite Hd, Z.add_0_r in Hr'. split; [exact Hr'|].
    rewrite Hc', Hr', Z.eqb_refl. reflexivity.
Qed.

Lemma cache_calls_balanced_witness :
  let w := after (setVisible sample_host true >> startCache >> render_ sample_host)
                 (hidden "abc" 2%N) in
  cacheReference_ (after (cache_calls [Start; Start; Stop; Stop]) w) = cacheReference_ w
  /\ cacheWidths_ (after (cache_calls [Start; Start; Stop; Stop]) w) = cacheWidths_ w.
Proof.
  cbv zeta. apply cache_calls_balanced; [|reflexivity|reflexivity].
  split; [vm_compute; discriminate|].
  split; intros _; [vm_compute; reflexivity | eexists; vm_compute; reflexivity].
Defined.

